(** * mb-worker: the request router of [worker.js]

    A shallow embedding of the Cloudflare Worker in [src/worker.js] and the
    properties its specification states about it.

    Layout: JavaScript strings and values, exceptions, [JSON.parse], the
    helper functions at the bottom of [worker.js] ([corsHeaders], [json],
    [contentType], [safeJson], [sanitize], [escapeHtml], [corsSuggestions]),
    the storage binding [env.SITE] as an interface, the [fetch] handler, and
    then the theorems. *)

From Stdlib Require Import String Ascii ZArith NArith List Bool Lia.
Import ListNotations.

(* ================================================================== *)
(** * JavaScript strings *)
(* ================================================================== *)

(** A JavaScript string is a sequence of UTF-16 code units.  Every string
    operation of [worker.js] ([endsWith], [replace] with a character class,
    [split], [includes], [===]) works code unit by code unit, so strings are
    lists of code units, each a number below 65536. *)
Definition jsstring := list N.

(** [str] turns a literal of the source into its code units. *)
Definition str (s : string) : jsstring :=
  map N_of_ascii (list_ascii_of_string s).
Arguments str s%_string.

(** The double quote (U+0022). *)
Definition dquote : N := 34.

(** [a === b] on strings. *)
Fixpoint streq (a b : jsstring) : bool :=
  match a, b with
  | [], [] => true
  | x :: a', y :: b' => N.eqb x y && streq a' b'
  | _, _ => false
  end.

(** [s.endsWith(suffix)] *)
Definition endsWith (s suffix : jsstring) : bool :=
  (length suffix <=? length s)%nat
  && streq (skipn (length s - length suffix) s) suffix.

(** [s.startsWith(prefix)] *)
Definition startsWith (s prefix : jsstring) : bool :=
  streq (firstn (length prefix) s) prefix.

(** Case folding of the basic Latin letters: [A]-[Z] to [a]-[z].  A regular
    expression with the [i] flag and without the [u] flag canonicalises a
    code unit with [toUpperCase] and never lets a code unit of 128 or more
    meet one below 128, so against a pattern of basic Latin letters exactly
    the two cases of each letter match. *)
Definition lower (c : N) : N :=
  if (65 <=? c)%N && (c <=? 90)%N then (c + 32)%N else c.

Definition toLowerCase_ascii (s : jsstring) : jsstring := map lower s.

(* ================================================================== *)
(** * The content-type classifier *)
(* ================================================================== *)

(** The alternatives of [/\.(png|jpg|jpeg|gif|webp|svg)$/i]. *)
Definition image_suffixes : list jsstring :=
  [str ".png"; str ".jpg"; str ".jpeg"; str ".gif"; str ".webp"; str ".svg"].

(** [/\.(png|jpg|jpeg|gif|webp|svg)$/i.test(path)]: without the [m] flag [$]
    is the end of the input, so the test asks for one of the six suffixes,
    letters compared without case. *)
Definition image_regex_test (path : jsstring) : bool :=
  existsb (endsWith (toLowerCase_ascii path)) image_suffixes.

(** [function contentType(path)] *)
Definition contentType (path : jsstring) : jsstring :=
  if endsWith path (str ".html") then str "text/html; charset=utf-8"
  else if endsWith path (str ".css") then str "text/css; charset=utf-8"
  else if endsWith path (str ".js") then str "text/javascript; charset=utf-8"
  else if image_regex_test path then str "image/*"
  else str "text/plain; charset=utf-8".

(** The classifier as the specification words it: a path [p] has suffix [s]
    when [p] is some string followed by [s]; it has [s] as a suffix without
    regard to case when it ends in a string that folds to [s]. *)
Definition HasSuffix (p s : jsstring) : Prop := exists pre, p = pre ++ s.

Definition HasSuffixNoCase (p s : jsstring) : Prop :=
  exists pre tail, p = pre ++ tail /\ toLowerCase_ascii tail = s.

Definition ImageSuffix (p : jsstring) : Prop :=
  exists s, In s image_suffixes /\ HasSuffixNoCase p s.

(** First match wins: each rule applies only when the rules before it do
    not. *)
Inductive Classified (p : jsstring) : jsstring -> Prop :=
| Classified_html :
    HasSuffix p (str ".html") ->
    Classified p (str "text/html; charset=utf-8")
| Classified_css :
    ~ HasSuffix p (str ".html") -> HasSuffix p (str ".css") ->
    Classified p (str "text/css; charset=utf-8")
| Classified_js :
    ~ HasSuffix p (str ".html") -> ~ HasSuffix p (str ".css") ->
    HasSuffix p (str ".js") ->
    Classified p (str "text/javascript; charset=utf-8")
| Classified_image :
    ~ HasSuffix p (str ".html") -> ~ HasSuffix p (str ".css") ->
    ~ HasSuffix p (str ".js") -> ImageSuffix p ->
    Classified p (str "image/*")
| Classified_plain :
    ~ HasSuffix p (str ".html") -> ~ HasSuffix p (str ".css") ->
    ~ HasSuffix p (str ".js") -> ~ ImageSuffix p ->
    Classified p (str "text/plain; charset=utf-8").

(* ================================================================== *)
(** * JavaScript values and exceptions *)
(* ================================================================== *)

(** The values this program handles: what [JSON.parse] yields, plus
    [undefined].  A number is kept as the exact decimal it was written as,
    [VNum m e] standing for [m * 10^e]; the numbers the program itself makes
    (an array length, a size, a status code) are integers, [VNum n 0]. *)
#[warnings="-register-all"]
Inductive value : Type :=
| VUndefined
| VNull
| VBool (b : bool)
| VNum (m e : Z)
| VStr (s : jsstring)
| VArr (items : list value)
| VObj (members : list (jsstring * value)).

(** The decimal [m * 10^e] becomes the double [0] when it is at most
    [2^-1075] in magnitude (half of the least positive double; the tie goes
    to the even neighbour, which is zero). *)
Definition number_is_zero (m e : Z) : bool :=
  if (e <? 0)%Z then (Z.abs m * 2 ^ 1075 <=? 10 ^ (- e))%Z else (m =? 0)%Z.

(** [ToBoolean]: what [!v], [v || d] and [v ? a : b] test.  A parsed number
    is never [NaN]. *)
Definition truthy (v : value) : bool :=
  match v with
  | VUndefined | VNull => false
  | VBool b => b
  | VNum m e => negb (number_is_zero m e)
  | VStr [] => false
  | VStr (_ :: _) => true
  | VArr _ | VObj _ => true
  end.

(** [Array.isArray(v)] *)
Definition isArray (v : value) : bool :=
  match v with VArr _ => true | _ => false end.

(** Exceptions.  The message of a built-in error is the engine's wording and
    no statement below depends on it.  [Thrown] is whatever a collaborator
    (the bucket, the form parser, the outbound fetch) throws, given by its
    [String(e)] text. *)
Inductive exn : Type :=
| SyntaxError (message : jsstring)
| TypeError (message : jsstring)
| Thrown (text : jsstring).

(** [String(err)] *)
Definition String_exn (e : exn) : jsstring :=
  match e with
  | SyntaxError m => str "SyntaxError: " ++ m
  | TypeError m => str "TypeError: " ++ m
  | Thrown t => t
  end.

(** A computation that returns or throws. *)
Inductive except (A : Type) : Type :=
| OK (a : A)
| Throw (e : exn).
Arguments OK {A} a.
Arguments Throw {A} e.

Definition except_bind {A B} (m : except A) (k : A -> except B) : except B :=
  match m with OK a => k a | Throw e => Throw e end.

(** Own property of an object literal or of a parsed object. *)
Fixpoint lookup {A} (k : jsstring) (members : list (jsstring * A)) : option A :=
  match members with
  | [] => None
  | (k', v) :: rest => if streq k' k then Some v else lookup k rest
  end.

(** [o[k] = v] on an ordinary object: an existing key keeps its place. *)
Fixpoint assign {A} (k : jsstring) (v : A) (members : list (jsstring * A))
  : list (jsstring * A) :=
  match members with
  | [] => [(k, v)]
  | (k', v') :: rest =>
      if streq k' k then (k, v) :: rest else (k', v') :: assign k v rest
  end.

(** [v.k], for the property names this program reads from request data
    ([path], [content], [files], [prompt], [section], [url]): none of them
    is defined on a prototype, so a primitive, an array, or an object
    without the key gives [undefined]; [null] and [undefined] have no
    properties and the read throws. *)
Definition get (v : value) (k : jsstring) : except value :=
  match v with
  | VUndefined =>
      Throw (TypeError (str "Cannot read properties of undefined"))
  | VNull => Throw (TypeError (str "Cannot read properties of null"))
  | VObj members =>
      match lookup k members with Some x => OK x | None => OK VUndefined end
  | _ => OK VUndefined
  end.

(** [v?.k] *)
Definition get_opt (v : value) (k : jsstring) : value :=
  match v with
  | VObj members =>
      match lookup k members with Some x => x | None => VUndefined end
  | _ => VUndefined
  end.

(** [a ?? b] *)
Definition nullish (a b : value) : value :=
  match a with VUndefined | VNull => b | _ => a end.

(* ================================================================== *)
(** * [JSON.parse] *)
(* ================================================================== *)

Module Json.

(** ** Tokens *)

Inductive token : Type :=
| TLBrace | TRBrace | TLBracket | TRBracket | TColon | TComma
| TString (s : jsstring)
| TNumber (m e : Z)
| TTrue | TFalse | TNull.

Definition is_digit (c : N) : bool := ((48 <=? c) && (c <=? 57))%N.
Definition is_letter (c : N) : bool := ((97 <=? c) && (c <=? 122))%N.

(** A character that can occur inside a number: a digit, [-], [+], [.],
    [e] or [E]. *)
Definition is_number_char (c : N) : bool :=
  is_digit c || N.eqb c 45 || N.eqb c 43 || N.eqb c 46
  || N.eqb c 101 || N.eqb c 69.

Definition hex_value (c : N) : option N :=
  if is_digit c then Some (c - 48)%N
  else if ((97 <=? c) && (c <=? 102))%N then Some (c - 87)%N
  else if ((65 <=? c) && (c <=? 70))%N then Some (c - 55)%N
  else None.

(** ** Numbers: an optional minus sign; then a single zero, or a non-zero
    digit and any digits; then optionally a dot and one digit or more;
    then optionally [e] or [E], an optional sign and one digit or more. *)

Fixpoint span_digits (cs : jsstring) : jsstring * jsstring :=
  match cs with
  | c :: rest =>
      if is_digit c
      then let (ds, r) := span_digits rest in (c :: ds, r)
      else ([], cs)
  | [] => ([], [])
  end.

Definition digits_value (ds : jsstring) : Z :=
  fold_left (fun acc d => (10 * acc + (Z.of_N d - 48))%Z) ds 0%Z.

Definition number_of (cs : jsstring) : option (Z * Z) :=
  let (negative, cs1) :=
    match cs with 45%N :: r => (true, r) | _ => (false, cs) end in
  let (ints, cs2) := span_digits cs1 in
  let int_ok :=
    match ints with
    | [] => false
    | 48%N :: _ :: _ => false
    | _ => true
    end in
  let '(fracs, cs3, frac_ok) :=
    match cs2 with
    | 46%N :: r =>
        let (fs, r') := span_digits r in
        (fs, r', match fs with [] => false | _ => true end)
    | _ => ([], cs2, true)
    end in
  let '(exponent, cs4, exp_ok) :=
    match cs3 with
    | (101%N | 69%N) :: r =>
        let (eneg, r1) :=
          match r with
          | 45%N :: r' => (true, r')
          | 43%N :: r' => (false, r')
          | _ => (false, r)
          end in
        let (es, r2) := span_digits r1 in
        ((if eneg then - digits_value es else digits_value es)%Z, r2,
         match es with [] => false | _ => true end)
    | _ => (0%Z, cs3, true)
    end in
  match cs4 with
  | [] =>
      if int_ok && frac_ok && exp_ok
      then
        let mag := digits_value (ints ++ fracs) in
        Some ((if negative then - mag else mag)%Z,
              (exponent - Z.of_nat (length fracs))%Z)
      else None
  | _ :: _ => None
  end.

Definition keyword_of (w : jsstring) : option token :=
  if streq w (str "true") then Some TTrue
  else if streq w (str "false") then Some TFalse
  else if streq w (str "null") then Some TNull
  else None.

(** ** The lexer, one code unit at a time *)

Inductive mode : Type :=
| Idle
| InString (acc : jsstring)
| InEscape (acc : jsstring)
| InUnicode (acc : jsstring) (seen : nat) (code : N)
| InWord (acc : jsstring)
| InNumber (acc : jsstring).
(* every [acc] holds the characters read so far, last one first *)

(** A character met between tokens. *)
Definition idle (c : N) (toks : list token) : option (mode * list token) :=
  match c with
  | 32%N | 9%N | 10%N | 13%N => Some (Idle, toks)
  | 123%N => Some (Idle, TLBrace :: toks)
  | 125%N => Some (Idle, TRBrace :: toks)
  | 91%N => Some (Idle, TLBracket :: toks)
  | 93%N => Some (Idle, TRBracket :: toks)
  | 58%N => Some (Idle, TColon :: toks)
  | 44%N => Some (Idle, TComma :: toks)
  | 34%N => Some (InString [], toks)
  | _ =>
      if is_digit c || N.eqb c 45 then Some (InNumber [c], toks)
      else if is_letter c then Some (InWord [c], toks)
      else None
  end.

Definition close_word (acc : jsstring) (toks : list token)
  : option (list token) :=
  match keyword_of (rev acc) with
  | Some t => Some (t :: toks)
  | None => None
  end.

Definition close_number (acc : jsstring) (toks : list token)
  : option (list token) :=
  match number_of (rev acc) with
  | Some (m, e) => Some (TNumber m e :: toks)
  | None => None
  end.

Definition step (md : mode) (toks : list token) (c : N)
  : option (mode * list token) :=
  match md with
  | Idle => idle c toks
  | InString acc =>
      match c with
      | 34%N => Some (Idle, TString (rev acc) :: toks)
      | 92%N => Some (InEscape acc, toks)
      | _ => if (c <? 32)%N then None else Some (InString (c :: acc), toks)
      end
  | InEscape acc =>
      match c with
      | 34%N => Some (InString (34%N :: acc), toks)
      | 92%N => Some (InString (92%N :: acc), toks)
      | 47%N => Some (InString (47%N :: acc), toks)
      | 98%N => Some (InString (8%N :: acc), toks)
      | 102%N => Some (InString (12%N :: acc), toks)
      | 110%N => Some (InString (10%N :: acc), toks)
      | 114%N => Some (InString (13%N :: acc), toks)
      | 116%N => Some (InString (9%N :: acc), toks)
      | 117%N => Some (InUnicode acc 0 0%N, toks)
      | _ => None
      end
  | InUnicode acc seen code =>
      match hex_value c with
      | Some h =>
          let code' := (16 * code + h)%N in
          if Nat.eqb seen 3 then Some (InString (code' :: acc), toks)
          else Some (InUnicode acc (S seen) code', toks)
      | None => None
      end
  | InWord acc =>
      if is_letter c then Some (InWord (c :: acc), toks)
      else match close_word acc toks with
           | Some toks' => idle c toks'
           | None => None
           end
  | InNumber acc =>
      if is_number_char c then Some (InNumber (c :: acc), toks)
      else match close_number acc toks with
           | Some toks' => idle c toks'
           | None => None
           end
  end.

Fixpoint lex (md : mode) (toks : list token) (cs : jsstring)
  : option (list token) :=
  match cs with
  | c :: rest =>
      match step md toks c with
      | Some (md', toks') => lex md' toks' rest
      | None => None
      end
  | [] =>
      match md with
      | Idle => Some (rev toks)
      | InWord acc => option_map (@rev token) (close_word acc toks)
      | InNumber acc => option_map (@rev token) (close_number acc toks)
      | InString _ | InEscape _ | InUnicode _ _ _ => None
      end
  end.

(** ** The parser, one token at a time, with the open arrays and objects
    on a stack *)

#[warnings="-register-all"]
Inductive frame : Type :=
| FArr (done : list value)
    (* inside an array; [done] holds its elements so far, last first *)
| FObj (done : list (jsstring * value)) (key : jsstring).
    (* inside an object, reading the value of [key] *)

#[warnings="-register-all"]
Inductive pstate : Type :=
| WantValue (stk : list frame)
| ArrayOpen (stk : list frame)
| ObjectOpen (stk : list frame)
| WantKey (stk : list frame) (done : list (jsstring * value))
| WantColon (stk : list frame) (done : list (jsstring * value))
    (key : jsstring)
| HaveValue (stk : list frame) (v : value).

Definition scalar_of (t : token) : option value :=
  match t with
  | TString s => Some (VStr s)
  | TNumber m e => Some (VNum m e)
  | TTrue => Some (VBool true)
  | TFalse => Some (VBool false)
  | TNull => Some VNull
  | _ => None
  end.

Definition begin_value (stk : list frame) (t : token) : option pstate :=
  match t with
  | TLBracket => Some (ArrayOpen stk)
  | TLBrace => Some (ObjectOpen stk)
  | _ => option_map (HaveValue stk) (scalar_of t)
  end.

Definition pstep (st : pstate) (t : token) : option pstate :=
  match st with
  | WantValue stk => begin_value stk t
  | ArrayOpen stk =>
      match t with
      | TRBracket => Some (HaveValue stk (VArr []))
      | _ => begin_value (FArr [] :: stk) t
      end
  | ObjectOpen stk =>
      match t with
      | TRBrace => Some (HaveValue stk (VObj []))
      | TString k => Some (WantColon stk [] k)
      | _ => None
      end
  | WantKey stk done =>
      match t with
      | TString k => Some (WantColon stk done k)
      | _ => None
      end
  | WantColon stk done k =>
      match t with
      | TColon => Some (WantValue (FObj done k :: stk))
      | _ => None
      end
  | HaveValue stk v =>
      match stk, t with
      | FArr done :: stk', TComma => Some (WantValue (FArr (v :: done) :: stk'))
      | FArr done :: stk', TRBracket =>
          Some (HaveValue stk' (VArr (rev (v :: done))))
      | FObj done k :: stk', TComma => Some (WantKey stk' (assign k v done))
      | FObj done k :: stk', TRBrace =>
          Some (HaveValue stk' (VObj (assign k v done)))
      | _, _ => None
      end
  end.

Fixpoint run (st : pstate) (ts : list token) : option value :=
  match ts with
  | t :: rest =>
      match pstep st t with
      | Some st' => run st' rest
      | None => None
      end
  | [] =>
      match st with
      | HaveValue [] v => Some v
      | _ => None
      end
  end.

(** [JSON.parse(text)]: the value, or a [SyntaxError].  A repeated key
    keeps its first place and its last value. *)
Definition parse (text : jsstring) : except value :=
  match lex Idle [] text with
  | Some ts =>
      match run (WantValue []) ts with
      | Some v => OK v
      | None => Throw (SyntaxError (str "Unexpected token in JSON"))
      end
  | None => Throw (SyntaxError (str "Unexpected token in JSON"))
  end.

End Json.

(* ================================================================== *)
(** * Requests, responses and the collaborators *)
(* ================================================================== *)

(** An object literal used as a header map, in insertion order. *)
Definition headers := list (jsstring * jsstring).

(** A [File] of a parsed multipart form.  [file_name] is [None] when the
    [name] property is [undefined]. *)
Record File : Type := {
  file_name : option jsstring;
  file_type : jsstring;
  file_bytes : list N
}.

Inductive FormEntry : Type :=
| FormText (s : jsstring)
| FormFile (f : File).

(** The parts of the request the handler looks at: [req.method],
    [new URL(req.url)] split into [pathname] and [searchParams],
    [req.headers], and the two views of the body, [await req.text()] and
    [await req.formData()] (which throws when the body is not a form). *)
Record Request : Type := {
  method : jsstring;
  pathname : jsstring;
  searchParams : list (jsstring * jsstring);
  req_headers : headers;
  text : jsstring;
  formData : except (list (jsstring * FormEntry))
}.

(** The body given to [new Response(body, init)]: [null], a string, or the
    string [JSON.stringify(obj)], which is kept as the object it serialises
    (a member whose value is [undefined] is left out of the text). *)
Inductive Body : Type :=
| NoBody
| Text (s : jsstring)
| Json (obj : value).

Record Response : Type := {
  status : Z;
  resp_headers : headers;
  body : Body
}.

(** [env]: the variable [ALLOW_ORIGINS], [None] when it is not set.  The
    bucket binding [env.SITE] is the state threaded through the handler. *)
Record Env : Type := {
  ALLOW_ORIGINS : option jsstring
}.

(** An object of a listing, as the loop of the list route reads it: [key],
    [size] and the [uploaded] date (a time value in milliseconds); an
    object without a member [uploaded] has [None] there. *)
Record R2Object : Type := {
  key : jsstring;
  size : Z;
  uploaded : option Z
}.

(** What the call [env.SITE.list({ prefix })] returns, as [for await]
    takes it.  The R2 bucket binding that [worker.js] names for [SITE]
    returns a promise of the listing, an object with the members
    [objects], [truncated] and others: that is [Promised], with the
    [objects] of the listing.  A promise has neither an async iterator
    nor an iterator.  [Sequence] is a value that can be iterated, with the
    objects it yields. *)
Inductive Listing : Type :=
| Promised (objects : list R2Object)
| Sequence (objs : list R2Object).

(** The second argument of [env.SITE.put]: a JavaScript value (the [content]
    of a write) or an [ArrayBuffer] (an upload). *)
Inductive Payload : Type :=
| Content (v : value)
| Buffer (bytes : list N).

(** The storage binding [env.SITE].  [B] is the state of the bucket.
    - [bucket_list b prefix]: what [env.SITE.list({ prefix })] returns;
    - [bucket_get b key]: [null], or the text of the object, that is
      [env.SITE.get(key)] followed by [obj.text()];
    - [bucket_put b key data contentType]: the bucket after
      [env.SITE.put(key, data, { httpMetadata: { contentType } })].
    Each of them may throw. *)
Class Bucket (B : Type) : Type := {
  bucket_list : B -> jsstring -> except Listing;
  bucket_get : B -> jsstring -> except (option jsstring);
  bucket_put : B -> jsstring -> Payload -> jsstring -> except B
}.

(** The response of the outbound [fetch(target, { method: "GET" })]:
    [res.status] and the pairs [res.headers.forEach] visits. *)
Record Reply : Type := {
  reply_status : Z;
  reply_headers : headers
}.

(** What the engine and the platform provide:
    - [now]: the clock, read by [Date.now()] and [new Date()];
    - [toISOString t]: [Date.prototype.toISOString] of the date [t];
    - [Number_toString m e]: the text of the number [m * 10^e] in a
      template literal;
    - [outbound target]: the global [fetch], which throws on a network
      failure or a target that is not a URL. *)
Record Host : Type := {
  now : Z;
  toISOString : Z -> jsstring;
  Number_toString : Z -> Z -> jsstring;
  outbound : value -> except Reply
}.

(** [headers.get(name)]: header names compare without case, and the values
    of a repeated header are joined with a comma and a space. *)
Definition Headers_get (h : headers) (name : jsstring) : option jsstring :=
  match filter (fun kv => streq (toLowerCase_ascii (fst kv))
                                (toLowerCase_ascii name)) h with
  | [] => None
  | kv :: rest =>
      Some (fold_left (fun acc kv' => acc ++ str ", " ++ snd kv') rest (snd kv))
  end.

(** [searchParams.get(name)] and [form.get(name)]: the first entry of that
    name, or [null]. *)
Fixpoint first_of {A} (name : jsstring) (entries : list (jsstring * A))
  : option A :=
  match entries with
  | [] => None
  | (k, v) :: rest => if streq k name then Some v else first_of name rest
  end.

(** [x || d] where [x] is a string or [null]/[undefined]. *)
Definition or_else (x : option jsstring) (d : jsstring) : jsstring :=
  match x with
  | Some (c :: s) => c :: s
  | _ => d
  end.

(** Decimal digits of an integer, as a template literal prints a number
    such as [Date.now()] (an integer below [10^21] in magnitude). *)
Fixpoint uint_digits (d : Decimal.uint) : jsstring :=
  match d with
  | Decimal.Nil => []
  | Decimal.D0 d => 48%N :: uint_digits d
  | Decimal.D1 d => 49%N :: uint_digits d
  | Decimal.D2 d => 50%N :: uint_digits d
  | Decimal.D3 d => 51%N :: uint_digits d
  | Decimal.D4 d => 52%N :: uint_digits d
  | Decimal.D5 d => 53%N :: uint_digits d
  | Decimal.D6 d => 54%N :: uint_digits d
  | Decimal.D7 d => 55%N :: uint_digits d
  | Decimal.D8 d => 56%N :: uint_digits d
  | Decimal.D9 d => 57%N :: uint_digits d
  end.

Definition decimal (z : Z) : jsstring :=
  match z with
  | Z0 => [48%N]
  | Zpos p => uint_digits (Pos.to_uint p)
  | Zneg p => 45%N :: uint_digits (Pos.to_uint p)
  end.

(* ================================================================== *)
(** * The helper functions of [worker.js] *)
(* ================================================================== *)

(** [function corsHeaders(allow, origin)] *)
Definition corsHeaders (allow : bool) (origin : jsstring) : headers :=
  let h := [ (str "Access-Control-Allow-Methods", str "GET,POST,OPTIONS");
             (str "Access-Control-Allow-Headers",
              str "content-type, authorization");
             (str "Access-Control-Max-Age", str "86400") ] in
  if allow then assign (str "Access-Control-Allow-Origin") origin h else h.

(** [function json(obj, allow, origin, status = 200)] *)
Definition json (obj : value) (allow : bool) (origin : jsstring) (status : Z)
  : Response :=
  {| status := status;
     resp_headers :=
       assign (str "Content-Type") (str "application/json")
              (corsHeaders allow origin);
     body := Json obj |}.

(** [function safeJson(req)] *)
Definition safeJson (req : Request) : except value :=
  match text req with
  | [] => OK (VObj [])
  | txt => Json.parse txt
  end.

(** [name.replace(/[^a-zA-Z0-9._-]/g, "_")]: the code units kept. *)
Definition sanitize_keeps (c : N) : bool :=
  ((97 <=? c) && (c <=? 122))%N || ((65 <=? c) && (c <=? 90))%N
  || ((48 <=? c) && (c <=? 57))%N
  || N.eqb c 46 || N.eqb c 95 || N.eqb c 45.

(** [function sanitize(name = "file")]: the default is taken when the
    argument is [undefined]. *)
Definition sanitize (name : option jsstring) : jsstring :=
  let name := match name with Some n => n | None => str "file" end in
  map (fun c => if sanitize_keeps c then c else 95%N) name.

(** The replacement function of [escapeHtml] on one code unit: the
    ampersand, the two angle brackets, the double quote and the apostrophe
    are the class the regular expression matches; every other code unit is
    left as it is. *)
Definition escape_char (c : N) : jsstring :=
  match c with
  | 38%N => str "&amp;"
  | 60%N => str "&lt;"
  | 62%N => str "&gt;"
  | 34%N => str "&quot;"
  | 39%N => str "&#39;"
  | _ => [c]
  end.

(** [function escapeHtml(s)] on a string. *)
Definition escapeHtml (s : jsstring) : jsstring := flat_map escape_char s.

(** [escapeHtml(v)] on any value: the default parameter, the empty string,
    for [undefined], and a [TypeError] for a value that has no [replace]
    method. *)
Definition escapeHtml_value (v : value) : except jsstring :=
  match v with
  | VUndefined => OK (escapeHtml [])
  | VStr s => OK (escapeHtml s)
  | VNull => Throw (TypeError (str "Cannot read properties of null"))
  | _ => Throw (TypeError (str "s.replace is not a function"))
  end.

(** [function corsSuggestions(h)]: [!h[name]] holds when the header is
    missing or empty. *)
Definition header_missing (h : headers) (name : jsstring) : bool :=
  match lookup name h with
  | Some (_ :: _) => false
  | _ => true
  end.

Definition corsSuggestions (h : headers) : list jsstring :=
  let out := [] in
  let out :=
    if header_missing h (str "access-control-allow-origin")
    then out ++ [str "Add Access-Control-Allow-Origin for your site origin (or reflect allowlist)."]
    else out in
  let out :=
    if header_missing h (str "access-control-allow-methods")
    then out ++ [str "Add Access-Control-Allow-Methods: GET,POST,OPTIONS."]
    else out in
  let out :=
    if header_missing h (str "access-control-allow-headers")
    then out ++ [str "Add Access-Control-Allow-Headers: content-type, authorization."]
    else out in
  match out with
  | [] => [str "CORS looks okay or target doesn" ++ [8217%N]
             ++ str "t support CORS (use server-to-server fetch)."]
  | _ => out
  end.

(** The head of [for await (const obj of listing)]: the objects the loop
    goes over, or the [TypeError] for a value that cannot be iterated. *)
Definition iterate (listing : Listing) : except (list R2Object) :=
  match listing with
  | Sequence objs => OK objs
  | Promised _ =>
      Throw (TypeError (str "env.SITE.list(...) is not a function or its return value is not async iterable"))
  end.

(** [s.includes(t)] on strings: [t] occurs somewhere in [s]. *)
Fixpoint occurs_in (t s : jsstring) : bool :=
  startsWith s t
  || match s with
     | [] => false
     | _ :: s' => occurs_in t s'
     end.

(** [origins.includes(origin)], where [origins] is what [JSON.parse] gave
    and [origin] is a string: membership for an array, a substring test for
    a string, and a [TypeError] for a value without an [includes] method. *)
Definition Array_includes (items : list value) (origin : jsstring) : bool :=
  existsb (fun v => match v with
                    | VStr s => streq s origin
                    | _ => false
                    end) items.

Definition includes (origins : value) (origin : jsstring) : except bool :=
  match origins with
  | VArr items => OK (Array_includes items origin)
  | VStr s => OK (occurs_in origin s)
  | VNull | VUndefined =>
      Throw (TypeError (str "Cannot read properties of null"))
  | _ => Throw (TypeError (str "origins.includes is not a function"))
  end.

(** [key.split("/")]: the segments between slashes; never empty. *)
Fixpoint split_slash (s : jsstring) : list jsstring :=
  match s with
  | [] => [[]]
  | c :: rest =>
      if N.eqb c 47 then [] :: split_slash rest
      else match split_slash rest with
           | seg :: segs => (c :: seg) :: segs
           | [] => [[c]]
           end
  end.

(** [key.split("/").pop()] *)
Definition last_segment (s : jsstring) : jsstring := last (split_slash s) [].

(* ================================================================== *)
(** * The handler *)
(* ================================================================== *)

(** An object literal with the members given. *)
Definition ok_true : jsstring * value := (str "ok", VBool true).
Definition ok_false : jsstring * value := (str "ok", VBool false).
Definition error_is (msg : string) : jsstring * value :=
  (str "error", VStr (str msg)).

Section Worker.

Context {B : Type} {SITE : Bucket B}.
Variable host : Host.

(** A step of the handler: it reads and writes the bucket, and returns or
    throws.  A write made before a throw stays made. *)
Definition M (A : Type) : Type := B -> except A * B.

Definition ret {A} (a : A) : M A := fun b => (OK a, b).
Definition throw {A} (e : exn) : M A := fun b => (Throw e, b).
Definition bind {A C} (m : M A) (k : A -> M C) : M C :=
  fun b => match m b with
           | (OK a, b') => k a b'
           | (Throw e, b') => (Throw e, b')
           end.
Definition lift {A} (r : except A) : M A := fun b => (r, b).

(** [try { m } catch (err) { handler err }] *)
Definition try_catch {A} (m : M A) (handler : exn -> M A) : M A :=
  fun b => match m b with
           | (OK a, b') => (OK a, b')
           | (Throw e, b') => handler e b'
           end.

Notation "x <- m ;; k" := (bind m (fun x => k))
  (at level 61, m at next level, right associativity).
Notation "m ;;; k" := (bind m (fun _ => k))
  (at level 61, right associativity).

Definition SITE_list (prefix : jsstring) : M Listing :=
  fun b => (bucket_list b prefix, b).

Definition SITE_get (k : jsstring) : M (option jsstring) :=
  fun b => (bucket_get b k, b).

Definition SITE_put (k : jsstring) (data : Payload) (ctype : jsstring)
  : M unit :=
  fun b => match bucket_put b k data ctype with
           | OK b' => (OK tt, b')
           | Throw e => (Throw e, b)
           end.

(** [for (const x of xs) { body x }] *)
Fixpoint for_of {A} (xs : list A) (body : A -> M unit) : M unit :=
  match xs with
  | [] => ret tt
  | x :: rest => body x ;;; for_of rest body
  end.

(** [String(v)] as a template literal applies it.  An array is joined
    with commas, [null] and [undefined] elements printing as nothing; an
    object prints as [[object Object]] unless it has a [toString] member
    of its own, which no parsed value can call. *)
Fixpoint ToString (v : value) : except jsstring :=
  match v with
  | VUndefined => OK (str "undefined")
  | VNull => OK (str "null")
  | VBool true => OK (str "true")
  | VBool false => OK (str "false")
  | VNum m e => OK (Number_toString host m e)
  | VStr s => OK s
  | VArr items =>
      (fix join (l : list value) (first : bool) : except jsstring :=
         match l with
         | [] => OK []
         | x :: rest =>
             except_bind
               match x with
               | VUndefined | VNull => OK []
               | _ => ToString x
               end
               (fun sx =>
                  except_bind (join rest false)
                    (fun sr => OK ((if first then [] else [44%N])
                                     ++ sx ++ sr)))
         end) items true
  | VObj members =>
      match lookup (str "toString") members with
      | Some _ =>
          Throw (TypeError (str "Cannot convert object to primitive value"))
      | None => OK (str "[object Object]")
      end
  end.

(** The call of [env.SITE.put] in the write and apply-diff routes: the key
    is [path], the data is [content], or the empty string when [content]
    is [null] or [undefined], and the content type is [contentType(path)].
    The arguments are evaluated before the call, and [contentType(path)]
    throws when [path] has no [endsWith] method. *)
Definition put_file (path content : value) : M unit :=
  match path with
  | VStr p =>
      SITE_put p (Content (nullish content (VStr []))) (contentType p)
  | VNull | VUndefined =>
      throw (TypeError (str "Cannot read properties of null"))
  | _ => throw (TypeError (str "path.endsWith is not a function"))
  end.

Section Routes.

Variable req : Request.
Variable allow : bool.
Variable origin : jsstring.

(** [/api/ping] *)
Definition api_ping : M Response :=
  ret (json (VObj [ok_true;
                   (str "time", VStr (toISOString host (now host)))])
            allow origin 200).

(** One turn of the loop of [/api/list]: [items.push({ key: obj.key,
    size: obj.size, uploaded: obj.uploaded?.toISOString?.() })]. *)
Definition list_item (obj : R2Object) : value :=
  VObj [ (str "key", VStr (key obj));
         (str "size", VNum (size obj) 0);
         (str "uploaded",
          match uploaded obj with
          | Some t => VStr (toISOString host t)
          | None => VUndefined
          end) ].

(** [/api/list] *)
Definition api_list : M Response :=
  let prefix := or_else (first_of (str "prefix") (searchParams req)) [] in
  listing <- SITE_list prefix ;;
  objs <- lift (iterate listing) ;;
  let items := fold_left (fun items obj => items ++ [list_item obj])
                         objs [] in
  ret (json (VObj [ok_true; (str "items", VArr items)]) allow origin 200).

(** [/api/read] *)
Definition api_read : M Response :=
  match first_of (str "path") (searchParams req) with
  | None | Some [] =>
      ret (json (VObj [ok_false; error_is "path required"])
                allow origin 400)
  | Some path =>
      obj <- SITE_get path ;;
      match obj with
      | None =>
          ret (json (VObj [ok_false; error_is "not found"])
                    allow origin 404)
      | Some body =>
          ret {| status := 200;
                 resp_headers :=
                   assign (str "Content-Type") (contentType path)
                          (corsHeaders allow origin);
                 body := Text body |}
      end
  end.

(** [/api/write] *)
Definition api_write : M Response :=
  parsed <- lift (safeJson req) ;;
  path <- lift (get parsed (str "path")) ;;
  content <- lift (get parsed (str "content")) ;;
  if negb (truthy path)
  then ret (json (VObj [ok_false; error_is "path required"])
                 allow origin 400)
  else
    put_file path content ;;;
    ret (json (VObj [ok_true; (str "path", path)]) allow origin 200).

(** The body of the loop of [/api/apply-diff]. *)
Definition apply_file (f : value) : M unit :=
  path <- lift (get f (str "path")) ;;
  if negb (truthy path) then ret tt
  else
    content <- lift (get f (str "content")) ;;
    put_file path content.

(** [/api/apply-diff] *)
Definition api_apply_diff : M Response :=
  payload <- lift (safeJson req) ;;
  match get_opt payload (str "files") with
  | VArr files =>
      for_of files apply_file ;;;
      ret (json (VObj [ok_true;
                       (str "applied",
                        VNum (Z.of_nat (length files)) 0)])
                allow origin 200)
  | _ =>
      ret (json (VObj [ok_false;
                       error_is "Provide files[] or unified diff (TODO)"])
                allow origin 400)
  end.

(** The template of [/api/generate-html]. *)
Definition html_template (section heading : jsstring) : jsstring :=
  str "<!-- generated: " ++ section ++ str " -->" ++ [10%N]
  ++ str "<section class=" ++ [dquote] ++ str "card" ++ [dquote]
  ++ str ">" ++ [10%N]
  ++ str "  <h2>" ++ heading ++ str "</h2>" ++ [10%N]
  ++ str "  <p>This is a generated placeholder. Replace with model output when keys are set.</p>"
  ++ [10%N]
  ++ str "</section>".

Definition card_css : jsstring :=
  str ".card{background:#101a2e;border:1px solid #1f2e4f;border-radius:20px;padding:16px;color:#e8eefc}".

(** [/api/generate-html] *)
Definition api_generate_html : M Response :=
  parsed <- lift (safeJson req) ;;
  prompt <- lift (get parsed (str "prompt")) ;;
  section <- lift (get parsed (str "section")) ;;
  let section := match section with
                 | VUndefined => VStr (str "page")
                 | _ => section
                 end in
  tag <- lift (ToString section) ;;
  heading <- lift (escapeHtml_value
                     (if truthy prompt then prompt
                      else VStr (str "New Section"))) ;;
  let html := html_template tag heading in
  let css := card_css in
  let js := [] in
  ret (json (VObj [ok_true; (str "html", VStr html);
                   (str "css", VStr css); (str "js", VStr js)])
            allow origin 200).

(** [headers[k.toLowerCase()] = v] on a plain object.  The names that
    [res.headers.forEach] passes are header names, which have no letter
    outside the basic Latin ones; assigning a string to [__proto__]
    leaves a plain object as it is. *)
Definition record_header (h : headers) (kv : jsstring * jsstring)
  : headers :=
  let k := toLowerCase_ascii (fst kv) in
  if streq k (str "__proto__") then h else assign k (snd kv) h.

Definition headers_value (h : headers) : value :=
  VObj (map (fun kv => (fst kv, VStr (snd kv))) h).

(** [/api/analyze-cors] *)
Definition api_analyze_cors : M Response :=
  parsed <- lift (safeJson req) ;;
  target <- lift (get parsed (str "url")) ;;
  if negb (truthy target)
  then ret (json (VObj [ok_false; error_is "url required"])
                 allow origin 400)
  else
    match outbound host target with
    | Throw e =>
        ret (json (VObj [ok_false; error_is "fetch_failed";
                         (str "detail", VStr (String_exn e))])
                  allow origin 502)
    | OK res =>
        let headers := fold_left record_header (reply_headers res) [] in
        let suggestions := corsSuggestions headers in
        ret (json (VObj [ok_true;
                         (str "status", VNum (reply_status res) 0);
                         (str "headers", headers_value headers);
                         (str "suggestions",
                          VArr (map VStr suggestions))])
                  allow origin 200)
    end.

(** [/api/upload] *)
Definition api_upload : M Response :=
  let ct := or_else (Headers_get (req_headers req) (str "Content-Type"))
                    [] in
  if negb (startsWith ct (str "multipart/form-data"))
  then ret (json (VObj [ok_false;
                        error_is "multipart/form-data required"])
                 allow origin 400)
  else
    form <- lift (formData req) ;;
    match first_of (str "file") form with
    | None | Some (FormText _) =>
        ret (json (VObj [ok_false; error_is "file required"])
                  allow origin 400)
    | Some (FormFile file) =>
        let key := str "assets/" ++ decimal (now host) ++ str "_"
                   ++ sanitize (file_name file) in
        SITE_put key (Buffer (file_bytes file))
                 (or_else (Some (file_type file))
                          (str "application/octet-stream")) ;;;
        ret (json (VObj [ok_true; (str "key", VStr key);
                         (str "url",
                          VStr (str "/assets/" ++ last_segment key))])
                  allow origin 200)
    end.

(** [/api/deploy] *)
Definition api_deploy : M Response :=
  ret (json (VObj [ok_false;
                   (str "message",
                    VStr (str "Deploy not wired yet. Choose Pages Direct Upload or Git mode."))])
            allow origin 501).

(** [url.pathname === p] and [req.method === m] *)
Definition path_is (p : string) : bool := streq (pathname req) (str p).
Definition method_is (m : string) : bool := streq (method req) (str m).

(** The router: the body of the [try] block. *)
Definition router : M Response :=
  if path_is "/api/ping" then api_ping
  else if path_is "/api/list" && method_is "GET" then api_list
  else if path_is "/api/read" && method_is "GET" then api_read
  else if path_is "/api/write" && method_is "POST" then api_write
  else if path_is "/api/apply-diff" && method_is "POST" then api_apply_diff
  else if path_is "/api/generate-html" && method_is "POST"
       then api_generate_html
  else if path_is "/api/analyze-cors" && method_is "POST" then api_analyze_cors
  else if path_is "/api/upload" && method_is "POST" then api_upload
  else if path_is "/api/deploy" && method_is "POST" then api_deploy
  else ret (json (VObj [ok_false; error_is "Route not found"])
                 allow origin 404).

(** The [catch] block. *)
Definition server_error (err : exn) : M Response :=
  ret (json (VObj [ok_false; error_is "server_error";
                   (str "detail", VStr (String_exn err))])
            allow origin 500).

End Routes.

(** [async fetch(req, env, ctx)].  The result is the response the handler
    returns, or the exception that leaves it, and the bucket afterwards. *)
Definition fetch (req : Request) (env : Env) : M Response :=
  origins <- lift (Json.parse (or_else (ALLOW_ORIGINS env) (str "[]"))) ;;
  let origin := or_else (Headers_get (req_headers req) (str "Origin")) [] in
  allow <- lift (includes origins origin) ;;
  if streq (method req) (str "OPTIONS")
  then ret {| status := 204;
              resp_headers := corsHeaders allow origin;
              body := NoBody |}
  else try_catch (router req allow origin) (server_error allow origin).

End Worker.

Arguments M B A : clear implicits.

(* ================================================================== *)
(** * The storage collaborator *)
(* ================================================================== *)

(** Modelled from the spec: the storage collaborator, which the
    specification describes as an abstract key-addressed blob store with
    [list(prefix)], [get(key)] and [put(key, data, contentType)]; the code
    of the bucket is the platform's.  A [put] of a string succeeds, and a
    [get] of the same key afterwards gives that string back.  The law of
    [list] is that of the R2 binding [worker.js] names: with [entries b]
    every object of the bucket in the order the store lists them, [list]
    returns a promise of a listing whose [objects] are a page, from the
    first on, of those whose key starts with the prefix. *)
Class StoreLaws (B : Type) {SITE : Bucket B} (entries : B -> list R2Object)
  : Prop := {
  list_prefix : forall b prefix,
    exists n,
      bucket_list b prefix
      = OK (Promised
              (firstn n (filter (fun o => startsWith (key o) prefix)
                                (entries b))));
  put_text_succeeds : forall b k c ctype,
    exists b', bucket_put b k (Content (VStr c)) ctype = OK b';
  get_after_put : forall b k c ctype b',
    bucket_put b k (Content (VStr c)) ctype = OK b' ->
    bucket_get b' k = OK (Some c)
}.

(** The writes of a batch, one after the other; stops at the first that
    throws. *)
Fixpoint put_all {B} {SITE : Bucket B} (b : B)
    (writes : list (jsstring * Payload * jsstring)) : except B :=
  match writes with
  | [] => OK b
  | (k, data, ctype) :: rest =>
      match bucket_put b k data ctype with
      | OK b' => put_all b' rest
      | Throw e => Throw e
      end
  end.

(** A bucket held in memory, with the interface of the R2 binding, and an
    engine, for the worked examples. *)
Module Demo.

Record entry : Type := {
  e_key : jsstring;
  e_text : jsstring;
  e_type : jsstring;
  e_uploaded : option Z
}.

(** The objects in the order they were first written, and a clock that
    stamps each write. *)
Record bucket : Type := {
  clock : Z;
  objects : list entry
}.

Fixpoint store (e : entry) (es : list entry) : list entry :=
  match es with
  | [] => [e]
  | e' :: rest =>
      if streq (e_key e') (e_key e) then e :: rest else e' :: store e rest
  end.

Definition write (b : bucket) (k text ctype : jsstring) : bucket :=
  {| clock := clock b + 1;
     objects := store {| e_key := k; e_text := text; e_type := ctype;
                         e_uploaded := Some (clock b) |} (objects b) |}.

Definition object_of (e : entry) : R2Object :=
  {| key := e_key e;
     size := Z.of_nat (length (e_text e));
     uploaded := e_uploaded e |}.

Fixpoint find_text (k : jsstring) (es : list entry) : option jsstring :=
  match es with
  | [] => None
  | e :: rest => if streq (e_key e) k then Some (e_text e)
                 else find_text k rest
  end.

#[global] Instance memory : Bucket bucket := {
  bucket_list b prefix :=
    OK (Promised (filter (fun o => startsWith (key o) prefix)
                         (map object_of (objects b))));
  bucket_get b k := OK (find_text k (objects b));
  bucket_put b k data ctype :=
    match data with
    | Content (VStr s) => OK (write b k s ctype)
    | Buffer bytes => OK (write b k bytes ctype)
    | Content _ =>
        Throw (Thrown (str "TypeError: the value is not a string, a buffer or a stream"))
    end
}.

Definition empty : bucket := {| clock := 0; objects := [] |}.

Definition all_objects (b : bucket) : list R2Object :=
  map object_of (objects b).

(** Dates in the ISO format, by the usual days-to-civil computation. *)
Definition pad (width : nat) (z : Z) : jsstring :=
  let d := decimal z in repeat 48%N (width - length d) ++ d.

Definition civil (days : Z) : Z * Z * Z :=
  let z := (days + 719468)%Z in
  let era := (z / 146097)%Z in
  let doe := (z - era * 146097)%Z in
  let yoe := ((doe - doe / 1460 + doe / 36524 - doe / 146096) / 365)%Z in
  let doy := (doe - (365 * yoe + yoe / 4 - yoe / 100))%Z in
  let mp := ((5 * doy + 2) / 153)%Z in
  let d := (doy - (153 * mp + 2) / 5 + 1)%Z in
  let m := (if mp <? 10 then mp + 3 else mp - 9)%Z in
  let y := (yoe + era * 400 + (if m <=? 2 then 1 else 0))%Z in
  (y, m, d).

Definition iso (t : Z) : jsstring :=
  let ms := (t mod 86400000)%Z in
  let '(y, m, d) := civil (t / 86400000) in
  (if ((0 <=? y) && (y <=? 9999))%Z then pad 4 y
   else (if (y <? 0)%Z then 45%N else 43%N) :: pad 6 (Z.abs y))
  ++ str "-" ++ pad 2 m ++ str "-" ++ pad 2 d
  ++ str "T" ++ pad 2 (ms / 3600000) ++ str ":" ++ pad 2 (ms / 60000 mod 60)
  ++ str ":" ++ pad 2 (ms / 1000 mod 60) ++ str "." ++ pad 3 (ms mod 1000)
  ++ str "Z".

(** The engine of the examples: the clock stands at 1700000000000; a
    number prints as JavaScript prints an integer when it is one; the
    only site on the network is [https://example.com/]. *)
Definition engine : Host := {|
  now := 1700000000000;
  toISOString := iso;
  Number_toString m e :=
    if (0 <=? e)%Z then decimal (m * 10 ^ e)
    else decimal m ++ str "e" ++ decimal e;
  outbound target :=
    match target with
    | VStr u =>
        if streq u (str "https://example.com/")
        then OK {| reply_status := 200;
                   reply_headers :=
                     [(str "content-type", str "text/html")] |}
        else Throw (Thrown (str "TypeError: fetch failed"))
    | _ => Throw (Thrown (str "TypeError: Invalid URL"))
    end
|}.

(** A string between double quotes, for writing JSON texts. *)
Definition quoted (s : string) : jsstring := [dquote] ++ str s ++ [dquote].

Definition request (m p : string) (query : list (jsstring * jsstring))
    (hs : headers) (txt : jsstring) : Request :=
  {| method := str m; pathname := str p; searchParams := query;
     req_headers := hs; text := txt;
     formData := Throw (Thrown (str "TypeError: the body is not a form")) |}.

Definition site_origin : jsstring := str "https://mb.meyoustudios.com".

(** [ALLOW_ORIGINS='["https://mb.meyoustudios.com"]'] *)
Definition env : Env :=
  {| ALLOW_ORIGINS :=
       Some (str "[" ++ quoted "https://mb.meyoustudios.com" ++ str "]") |}.

(** [{"files":[{"path":"a","content":"1"},{"content":"2"}]}], the batch of
    the specification's example. *)
Definition two_files : jsstring :=
  str "{" ++ quoted "files" ++ str ":[{" ++ quoted "path" ++ str ":"
  ++ quoted "a" ++ str "," ++ quoted "content" ++ str ":" ++ quoted "1"
  ++ str "},{" ++ quoted "content" ++ str ":" ++ quoted "2" ++ str "}]}".

Definition apply_two_files : Request :=
  request "POST" "/api/apply-diff" [] [] two_files.

(** [{"files":[{"path":"a","content":"1"},null]}] *)
Definition apply_file_and_null : Request :=
  request "POST" "/api/apply-diff" [] []
    (str "{" ++ quoted "files" ++ str ":[{" ++ quoted "path" ++ str ":"
     ++ quoted "a" ++ str "," ++ quoted "content" ++ str ":" ++ quoted "1"
     ++ str "},null]}").

(** The bucket after the write of [a]. *)
Definition with_a : bucket :=
  write empty (str "a") (str "1") (str "text/plain; charset=utf-8").

(** [{"path":"x.html","content":"<p>hi</p>"}] *)
Definition write_x : Request :=
  request "POST" "/api/write" [] []
    (str "{" ++ quoted "path" ++ str ":" ++ quoted "x.html" ++ str ","
     ++ quoted "content" ++ str ":" ++ quoted "<p>hi</p>" ++ str "}").

Definition read_x : Request :=
  request "GET" "/api/read" [(str "path", str "x.html")] [] [].



Definition list_all : Request := request "GET" "/api/list" [] [] [].


Definition prompt_five : Request :=
  request "POST" "/api/generate-html" [] []
    (str "{" ++ quoted "prompt" ++ str ":5}").

Definition ping_from_site : Request :=
  request "GET" "/api/nothing" [] [(str "Origin", site_origin)] [].

Definition preflight_nowhere : Request :=
  request "OPTIONS" "/no/such/route" [] [(str "Origin", site_origin)]
    (str "{").



(** A configuration that is an origin, not the JSON text of a list. *)
Definition bare_origin_env : Env := {| ALLOW_ORIGINS := Some site_origin |}.

Definition ping : Request := request "GET" "/api/ping" [] [] [].

End Demo.

(* ================================================================== *)
(** * Vocabulary of the statements *)
(* ================================================================== *)

(** The configuration holds an allowlist: [ALLOW_ORIGINS], or the default
    [[]] when it is unset or empty, is the JSON text of an array. *)
Definition Configured (env : Env) (origins : list value) : Prop :=
  Json.parse (or_else (ALLOW_ORIGINS env) (str "[]")) = OK (VArr origins).

(** The [origin] of the handler: the [Origin] header, or the empty string
    when the request has none. *)
Definition request_origin (req : Request) : jsstring :=
  or_else (Headers_get (req_headers req) (str "Origin")) [].

(** The four header names [corsHeaders] can set. *)
Definition cors_names : list jsstring :=
  [ str "Access-Control-Allow-Methods"; str "Access-Control-Allow-Headers";
    str "Access-Control-Max-Age"; str "Access-Control-Allow-Origin" ].

(** The response carries the three fixed headers, and the allow-origin
    header with value [origin] when [allow] holds and not at all
    otherwise.  Headers are read as a client reads them, with
    [headers.get]. *)
Definition CorsOk (allow : bool) (origin : jsstring) (r : Response) : Prop :=
  Headers_get (resp_headers r) (str "Access-Control-Allow-Methods")
    = Some (str "GET,POST,OPTIONS") /\
  Headers_get (resp_headers r) (str "Access-Control-Allow-Headers")
    = Some (str "content-type, authorization") /\
  Headers_get (resp_headers r) (str "Access-Control-Max-Age")
    = Some (str "86400") /\
  Headers_get (resp_headers r) (str "Access-Control-Allow-Origin")
    = (if allow then Some origin else None).

(** Every response a computation can return satisfies [P]. *)
Definition returns_only {B : Type} (P : Response -> Prop) (m : M B Response)
  : Prop :=
  forall b r b', m b = (OK r, b') -> P r.

(** The routes that read their body with [safeJson]. *)
Definition json_routes : list jsstring :=
  [ str "/api/write"; str "/api/apply-diff"; str "/api/generate-html";
    str "/api/analyze-cors" ].


(** The 500 of the [catch] block. *)
Definition server_error_response (e : exn) (allow : bool) (origin : jsstring)
  : Response :=
  json (VObj [ok_false; error_is "server_error";
              (str "detail", VStr (String_exn e))]) allow origin 500.

(** The heading of the placeholder: the prompt when it is a string that is
    not empty, the words New Section otherwise. *)
Definition heading_text (prompt : value) : jsstring :=
  match prompt with
  | VStr (c :: s) => c :: s
  | _ => str "New Section"
  end.

(** A prompt the placeholder can print: absent or otherwise falsy, or a
    string. *)
Definition printable_prompt (prompt : value) : Prop :=
  truthy prompt = false \/ exists s, prompt = VStr s.


(** An entry of [files] the loop of apply-diff can read: not [null], and
    with a [path] that is absent, otherwise falsy, or a string. *)
Definition well_formed_entry (f : value) : Prop :=
  f <> VNull /\ f <> VUndefined /\
  (truthy (get_opt f (str "path")) = false
   \/ exists p, get_opt f (str "path") = VStr p).

(** The writes a [files] array asks for: one for each entry whose [path] is
    a string that is not empty, in the order of the array, with the content
    (the empty string when it is absent or [null]) and the content type of
    the path, as the write route stores a file. *)
Definition writes_of (files : list value)
  : list (jsstring * Payload * jsstring) :=
  flat_map (fun f =>
              match get_opt f (str "path") with
              | VStr (c :: p) =>
                  [(c :: p,
                    Content (nullish (get_opt f (str "content")) (VStr [])),
                    contentType (c :: p))]
              | _ => []
              end) files.

(** The 400 of apply-diff. *)
Definition files_required_response (allow : bool) (origin : jsstring)
  : Response :=
  json (VObj [ok_false; error_is "Provide files[] or unified diff (TODO)"])
       allow origin 400.

(** The code units [sanitize] keeps: the basic Latin letters, the digits,
    the dot, the underscore and the hyphen. *)
Definition kept_by_sanitize (c : N) : Prop :=
  (65 <= c <= 90)%N \/ (97 <= c <= 122)%N \/ (48 <= c <= 57)%N
  \/ c = 46%N \/ c = 95%N \/ c = 45%N.


(** The declared type of an upload, or the default when it is empty. *)
Definition stored_type (file : File) : jsstring :=
  match file_type file with
  | [] => str "application/octet-stream"
  | t => t
  end.

(* ================================================================== *)
(** * Vocabulary of the further statements *)
(* ================================================================== *)

(** The three advices of [corsSuggestions] and its message for a reply that
    lacks nothing. *)
Definition advice_origin : jsstring :=
  str "Add Access-Control-Allow-Origin for your site origin (or reflect allowlist).".
Definition advice_methods : jsstring :=
  str "Add Access-Control-Allow-Methods: GET,POST,OPTIONS.".
Definition advice_headers : jsstring :=
  str "Add Access-Control-Allow-Headers: content-type, authorization.".
Definition looks_okay : jsstring :=
  str "CORS looks okay or target doesn" ++ [8217%N]
  ++ str "t support CORS (use server-to-server fetch).".

(** A header that is not in the map, or is there with the empty value. *)
Definition absent_or_empty (h : headers) (name : jsstring) : Prop :=
  lookup name h = None \/ lookup name h = Some [].

(** The five code units [escapeHtml] rewrites. *)
Definition escaped_char (c : N) : Prop :=
  c = 38%N \/ c = 60%N \/ c = 62%N \/ c = dquote \/ c = 39%N.

(** [t] occurs in [s]. *)
Definition Occurs (t s : jsstring) : Prop := exists a b, s = a ++ t ++ b.

(** The white space of JSON: space, tab, line feed, carriage return. *)
Definition json_space (c : N) : Prop :=
  c = 32%N \/ c = 9%N \/ c = 10%N \/ c = 13%N.

(** The routes of the router that test the method, as path and method. *)
Definition route_table : list (jsstring * jsstring) :=
  [ (str "/api/list", str "GET"); (str "/api/read", str "GET");
    (str "/api/write", str "POST"); (str "/api/apply-diff", str "POST");
    (str "/api/generate-html", str "POST");
    (str "/api/analyze-cors", str "POST"); (str "/api/upload", str "POST");
    (str "/api/deploy", str "POST") ].

(** The routes that call [env.SITE.put]. *)
Definition writing_routes : list jsstring :=
  [ str "/api/write"; str "/api/apply-diff"; str "/api/upload" ].

(** The 404 of the router. *)
Definition not_found_response (allow : bool) (origin : jsstring) : Response :=
  json (VObj [ok_false; error_is "Route not found"]) allow origin 404.

(** The shape of an answer of the router: a JSON envelope whose [ok] is
    [true] with status 200 and [false] with one of the error statuses, sent
    as [application/json]; or a raw text with status 200. *)
Definition Envelope (r : Response) : Prop :=
  match body r with
  | Json obj =>
      Headers_get (resp_headers r) (str "Content-Type")
        = Some (str "application/json") /\
      ((get_opt obj (str "ok") = VBool true /\ status r = 200%Z) \/
       (get_opt obj (str "ok") = VBool false /\
        In (status r) [400; 404; 500; 501; 502]%Z))
  | Text _ => status r = 200%Z
  | NoBody => False
  end.

(** A computation that leaves the bucket as it found it. *)
Definition preserves {B A : Type} (m : M B A) : Prop :=
  forall b, snd (m b) = b.

(** The header map of analyze-cors: the loop over the headers of the
    reply. *)
Definition recorded_headers (hs : headers) : headers :=
  fold_left record_header hs [].

(** Further requests and configurations for the worked examples. *)
Module Cases.

(** A batch of three files, the second with a number as content, which the
    bucket held in memory refuses. *)
Definition apply_three : Request :=
  Demo.request "POST" "/api/apply-diff" [] []
    (str "{" ++ Demo.quoted "files" ++ str ":[{"
     ++ Demo.quoted "path" ++ str ":" ++ Demo.quoted "a" ++ str ","
     ++ Demo.quoted "content" ++ str ":" ++ Demo.quoted "1"
     ++ str "},{" ++ Demo.quoted "path" ++ str ":"
     ++ Demo.quoted "b" ++ str "," ++ Demo.quoted "content"
     ++ str ":5},{" ++ Demo.quoted "path" ++ str ":"
     ++ Demo.quoted "c" ++ str "}]}").

Definition file_a : value :=
  VObj [(str "path", VStr (str "a")); (str "content", VStr (str "1"))].
Definition file_b : value :=
  VObj [(str "path", VStr (str "b")); (str "content", VNum 5 0)].
Definition file_c : value := VObj [(str "path", VStr (str "c"))].

(** What the bucket held in memory throws on a content that is not a
    string. *)
Definition refused : exn :=
  Thrown (str "TypeError: the value is not a string, a buffer or a stream").

(** A body of two spaces and a line feed. *)
Definition write_blank : Request :=
  Demo.request "POST" "/api/write" [] [] [32; 32; 10]%N.

(** An upload without the multipart content type, whose form cannot be
    read, and uploads whose [file] field is missing or is a text. *)
Definition upload_json : Request :=
  Demo.request "POST" "/api/upload" []
    [(str "Content-Type", str "application/json")] (str "{}").

Definition upload_text_field : Request :=
  {| method := str "POST"; pathname := str "/api/upload";
     searchParams := [];
     req_headers :=
       [(str "Content-Type", str "multipart/form-data; boundary=x")];
     text := [];
     formData := OK [(str "file", FormText (str "photo"))] |}.

(** An upload whose file name tries to leave the folder. *)
Definition climbing : File :=
  {| file_name := Some (str "../../etc/passwd");
     file_type := [];
     file_bytes := [] |}.

Definition upload_climbing : Request :=
  {| method := str "POST"; pathname := str "/api/upload";
     searchParams := [];
     req_headers :=
       [(str "Content-Type", str "multipart/form-data; boundary=x")];
     text := [];
     formData := OK [(str "file", FormFile climbing)] |}.

(** [{"url":"https://nowhere.example/"}], a site the engine of the examples
    cannot reach. *)
Definition analyze_nowhere : Request :=
  Demo.request "POST" "/api/analyze-cors" [] []
    (str "{" ++ Demo.quoted "url" ++ str ":"
     ++ Demo.quoted "https://nowhere.example/" ++ str "}").

(** A section that closes the comment of the template. *)
Definition section_closing_comment : Request :=
  Demo.request "POST" "/api/generate-html" [] []
    (str "{" ++ Demo.quoted "section" ++ str ":" ++ Demo.quoted "--><b>"
     ++ str "}").

(** The body [null]. *)
Definition write_null : Request :=
  Demo.request "POST" "/api/write" [] [] (str "null").
Definition apply_null : Request :=
  Demo.request "POST" "/api/apply-diff" [] [] (str "null").

(** A deploy with a body that is not JSON. *)
Definition deploy_broken : Request :=
  Demo.request "POST" "/api/deploy" [] [] (str "{").

(** A store of another make, whose [list] returns the objects as an
    array; it holds no texts and takes no writes. *)
Definition shelf : Type := list R2Object.

#[global] Instance shelf_store : Bucket shelf := {
  bucket_list b prefix :=
    OK (Sequence (filter (fun o => startsWith (key o) prefix) b));
  bucket_get b k := OK None;
  bucket_put b k data ctype := Throw (Thrown (str "Error: read only"))
}.

(** Two objects, the second without a date. *)
Definition two_on_the_shelf : shelf :=
  [ {| key := str "b.css"; size := 12; uploaded := Some 0%Z |};
    {| key := str "a.html"; size := 40; uploaded := None |} ].

End Cases.

(* ================================================================== *)
(** * Facts about strings *)
(* ================================================================== *)

Lemma streq_eq (a b : jsstring) : streq a b = true <-> a = b.
Proof.
  revert b; induction a as [|x a IH]; intros [|y b]; simpl;
    try (split; [discriminate | discriminate]); try tauto.
  rewrite andb_true_iff, N.eqb_eq, IH.
  split; [intros [-> ->]; reflexivity | intros H; inversion H; auto].
Qed.

Lemma streq_refl (a : jsstring) : streq a a = true.
Proof. apply streq_eq; reflexivity. Qed.

Lemma streq_neq (a b : jsstring) : streq a b = false <-> a <> b.
Proof.
  rewrite <- streq_eq. destruct (streq a b); split; congruence.
Qed.

Lemma endsWith_HasSuffix (p s : jsstring) :
  endsWith p s = true <-> HasSuffix p s.
Proof.
  unfold endsWith, HasSuffix. rewrite andb_true_iff, Nat.leb_le, streq_eq.
  split.
  - intros [Hle Hs]. exists (firstn (length p - length s) p).
    pose proof (firstn_skipn (length p - length s) p) as E.
    rewrite Hs in E. symmetry; exact E.
  - intros [pre ->]. rewrite length_app. split; [lia|].
    replace (length pre + length s - length s)%nat with (length pre) by lia.
    rewrite skipn_app, skipn_all, Nat.sub_diag. reflexivity.
Qed.

Lemma endsWith_false (p s : jsstring) :
  endsWith p s = false <-> ~ HasSuffix p s.
Proof.
  rewrite <- endsWith_HasSuffix. destruct (endsWith p s); split; congruence.
Qed.

Lemma endsWith_lower_NoCase (p s : jsstring) :
  endsWith (toLowerCase_ascii p) s = true <-> HasSuffixNoCase p s.
Proof.
  rewrite endsWith_HasSuffix. unfold HasSuffix, HasSuffixNoCase, toLowerCase_ascii.
  split.
  - intros [pre H].
    exists (firstn (length pre) p), (skipn (length pre) p).
    split; [symmetry; apply firstn_skipn|].
    rewrite <- skipn_map, H, skipn_app, skipn_all, Nat.sub_diag. reflexivity.
  - intros (pre & tail & -> & <-). exists (map lower pre). apply map_app.
Qed.

Lemma image_regex_test_spec (p : jsstring) :
  image_regex_test p = true <-> ImageSuffix p.
Proof.
  unfold image_regex_test, ImageSuffix. rewrite existsb_exists.
  split; intros (s & Hin & H); exists s; split; auto;
    apply endsWith_lower_NoCase; assumption.
Qed.

Lemma image_regex_test_false (p : jsstring) :
  image_regex_test p = false <-> ~ ImageSuffix p.
Proof.
  rewrite <- image_regex_test_spec.
  destruct (image_regex_test p); split; congruence.
Qed.

(* ================================================================== *)
(** * The classifier follows its rule list *)
(* ================================================================== *)

Lemma contentType_Classified (p : jsstring) : Classified p (contentType p).
Proof.
  unfold contentType.
  destruct (endsWith p (str ".html")) eqn:Hh.
  { apply Classified_html, endsWith_HasSuffix, Hh. }
  apply endsWith_false in Hh.
  destruct (endsWith p (str ".css")) eqn:Hc.
  { apply Classified_css; [|apply endsWith_HasSuffix]; assumption. }
  apply endsWith_false in Hc.
  destruct (endsWith p (str ".js")) eqn:Hj.
  { apply Classified_js; [| |apply endsWith_HasSuffix]; assumption. }
  apply endsWith_false in Hj.
  destruct (image_regex_test p) eqn:Hi.
  - apply Classified_image; auto. apply image_regex_test_spec, Hi.
  - apply Classified_plain; auto. apply image_regex_test_false, Hi.
Qed.

(** The rule list leaves no choice: a path has one classification. *)
Lemma Classified_unique (p t : jsstring) :
  Classified p t -> t = contentType p.
Proof.
  intros H. unfold contentType.
  inversion H as [Hh | Hh Hc | Hh Hc Hj | Hh Hc Hj Hi | Hh Hc Hj Hi];
    repeat match goal with
           | X : HasSuffix _ _ |- _ => apply endsWith_HasSuffix in X; rewrite X
           | X : ~ HasSuffix _ _ |- _ => apply endsWith_false in X; rewrite X
           | X : ImageSuffix _ |- _ =>
               apply image_regex_test_spec in X; rewrite X
           | X : ~ ImageSuffix _ |- _ =>
               apply image_regex_test_false in X; rewrite X
           end; reflexivity.
Qed.

(** C6. The content-type classifier is a total function of the path that
    follows the first-match-wins rule list of the specification: suffix
    [.html], then [.css], then [.js], then one of the six image suffixes
    compared without case, and [text/plain] for every other string; the
    result it gives is the only one the rule list allows.  The five sample
    paths map to the five results. *)
Theorem contentType_classifies :
  (forall p t, Classified p t <-> t = contentType p) /\
  contentType (str "a.html") = str "text/html; charset=utf-8" /\
  contentType (str "a.css") = str "text/css; charset=utf-8" /\
  contentType (str "a.js") = str "text/javascript; charset=utf-8" /\
  contentType (str "a.PNG") = str "image/*" /\
  contentType (str "a.txt") = str "text/plain; charset=utf-8".
Proof.
  split; [|repeat split; reflexivity].
  intros p t. split.
  - apply Classified_unique.
  - intros ->. apply contentType_Classified.
Qed.

(* ================================================================== *)
(** * The handler, step by step *)
(* ================================================================== *)

Lemma Array_includes_In (items : list value) (origin : jsstring) :
  Array_includes items origin = true <-> In (VStr origin) items.
Proof.
  unfold Array_includes. rewrite existsb_exists. split.
  - intros (v & Hin & Hv). destruct v; try discriminate.
    apply streq_eq in Hv. subst. exact Hin.
  - intros Hin. exists (VStr origin). split; [exact Hin | apply streq_refl].
Qed.

Lemma Array_includes_not_In (items : list value) (origin : jsstring) :
  Array_includes items origin = false <-> ~ In (VStr origin) items.
Proof.
  rewrite <- Array_includes_In.
  destruct (Array_includes items origin); split; congruence.
Qed.

Lemma json_CorsOk (obj : value) (allow : bool) (origin : jsstring) (st : Z) :
  CorsOk allow origin (json obj allow origin st).
Proof. destruct allow; repeat split; reflexivity. Qed.

Section Steps.

Context {B : Type} {SITE : Bucket B}.
Variable host : Host.

Lemma returns_only_ret P (r : Response) :
  P r -> returns_only (B := B) P (ret r).
Proof. intros H b r' b' E. inversion E; subst; exact H. Qed.

Lemma returns_only_bind {A} P (m : M B A) (k : A -> M B Response) :
  (forall a, returns_only P (k a)) -> returns_only P (bind m k).
Proof.
  intros H b r b'. unfold bind. destruct (m b) as [[a|e] b1]; intros E.
  - exact (H a b1 r b' E).
  - discriminate.
Qed.

Lemma read_CorsOk (allow : bool) (origin path text : jsstring) :
  CorsOk allow origin
    {| status := 200;
       resp_headers := assign (str "Content-Type") (contentType path)
                              (corsHeaders allow origin);
       body := Text text |}.
Proof. destruct allow; repeat split; reflexivity. Qed.

Ltac returns_only_tac :=
  repeat first
    [ apply returns_only_ret; first [ apply json_CorsOk | apply read_CorsOk ]
    | apply returns_only_bind; intros
    | match goal with
      | |- returns_only _ (if ?c then _ else _) => destruct c
      | |- returns_only _ (match ?x with _ => _ end) => destruct x
      end ].

Lemma router_CorsOk (req : Request) (allow : bool) (origin : jsstring) :
  returns_only (CorsOk allow origin) (router host req allow origin).
Proof.
  unfold router, api_ping, api_list, api_read, api_write, api_apply_diff,
    api_generate_html, api_analyze_cors, api_upload, api_deploy.
  returns_only_tac.
Qed.

(** With an allowlist configured, [fetch] is the preflight answer or the
    router inside its [try]. *)
Lemma fetch_Configured (req : Request) (env : Env) (origins : list value)
    (site : B) :
  Configured env origins ->
  fetch host req env site
  = let origin := request_origin req in
    let allow := Array_includes origins origin in
    if streq (method req) (str "OPTIONS")
    then (OK {| status := 204;
                resp_headers := corsHeaders allow origin;
                body := NoBody |}, site)
    else try_catch (router host req allow origin)
                   (server_error allow origin) site.
Proof.
  intros H. unfold fetch, bind, lift, Configured in *. rewrite H. simpl.
  destruct (streq (method req) (str "OPTIONS")); reflexivity.
Qed.

Lemma fetch_routed (req : Request) (env : Env) (origins : list value)
    (site : B) :
  Configured env origins ->
  method req <> str "OPTIONS" ->
  fetch host req env site
  = try_catch (router host req (Array_includes origins (request_origin req))
                      (request_origin req))
              (server_error (Array_includes origins (request_origin req))
                            (request_origin req)) site.
Proof.
  intros H Hm. rewrite (fetch_Configured req env origins site H). simpl.
  apply streq_neq in Hm. rewrite Hm. reflexivity.
Qed.

End Steps.

(* ================================================================== *)
(** * CORS headers, the preflight and the configuration *)
(* ================================================================== *)

(** C1. With an allowlist configured, every request whose method is not
    OPTIONS gets a response, whatever the route and whether the handler
    returns or throws; the response carries the three fixed CORS headers,
    and it carries Access-Control-Allow-Origin, equal to the request's
    origin, when that origin is in the allowlist, and no such header when
    it is not. *)
Theorem cors_headers_on_every_response
    {B : Type} {SITE : Bucket B} (host : Host)
    (req : Request) (env : Env) (origins : list value) (site : B) :
  Configured env origins ->
  method req <> str "OPTIONS" ->
  exists r site',
    fetch host req env site = (OK r, site') /\
    Headers_get (resp_headers r) (str "Access-Control-Allow-Methods")
      = Some (str "GET,POST,OPTIONS") /\
    Headers_get (resp_headers r) (str "Access-Control-Allow-Headers")
      = Some (str "content-type, authorization") /\
    Headers_get (resp_headers r) (str "Access-Control-Max-Age")
      = Some (str "86400") /\
    (In (VStr (request_origin req)) origins ->
     Headers_get (resp_headers r) (str "Access-Control-Allow-Origin")
       = Some (request_origin req)) /\
    (~ In (VStr (request_origin req)) origins ->
     Headers_get (resp_headers r) (str "Access-Control-Allow-Origin") = None).
Proof.
  intros Hc Hm. rewrite (fetch_routed host req env origins site Hc Hm).
  set (origin := request_origin req).
  set (allow := Array_includes origins origin).
  assert (Hr : exists r site',
             try_catch (router host req allow origin)
                       (server_error allow origin) site = (OK r, site')
             /\ CorsOk allow origin r).
  { unfold try_catch.
    destruct (router host req allow origin site) as [[r|e] b1] eqn:E.
    - exists r, b1. split; [reflexivity|].
      exact (router_CorsOk host req allow origin site r b1 E).
    - eexists _, b1. split; [reflexivity|]. apply json_CorsOk. }
  destruct Hr as (r & site' & E & Hm1 & Hm2 & Hm3 & Ho).
  exists r, site'. repeat split; auto.
  - intros Hin. apply Array_includes_In in Hin.
    fold origin allow in Hin. rewrite Ho. fold allow. rewrite Hin. reflexivity.
  - intros Hout. apply Array_includes_not_In in Hout.
    rewrite Ho. fold origin allow in Hout. rewrite Hout. reflexivity.
Qed.

Lemma cors_headers_on_every_response_witness :
  Configured Demo.env [VStr Demo.site_origin] /\
  method Demo.ping_from_site <> str "OPTIONS" /\
  exists r site',
    fetch Demo.engine Demo.ping_from_site Demo.env Demo.empty = (OK r, site') /\
    Headers_get (resp_headers r) (str "Access-Control-Allow-Methods")
      = Some (str "GET,POST,OPTIONS") /\
    Headers_get (resp_headers r) (str "Access-Control-Allow-Headers")
      = Some (str "content-type, authorization") /\
    Headers_get (resp_headers r) (str "Access-Control-Max-Age")
      = Some (str "86400") /\
    (In (VStr (request_origin Demo.ping_from_site)) [VStr Demo.site_origin] ->
     Headers_get (resp_headers r) (str "Access-Control-Allow-Origin")
       = Some (request_origin Demo.ping_from_site)) /\
    (~ In (VStr (request_origin Demo.ping_from_site))
          [VStr Demo.site_origin] ->
     Headers_get (resp_headers r) (str "Access-Control-Allow-Origin") = None).
Proof.
  assert (Hc : Configured Demo.env [VStr Demo.site_origin])
    by (vm_compute; reflexivity).
  assert (Hm : method Demo.ping_from_site <> str "OPTIONS")
    by (vm_compute; discriminate).
  split; [exact Hc|]. split; [exact Hm|].
  exact (cors_headers_on_every_response Demo.engine Demo.ping_from_site
           Demo.env [VStr Demo.site_origin] Demo.empty Hc Hm).
Defined.

(** A configuration that is unset or empty is the empty allowlist. *)
Lemma unset_config_is_empty_allowlist (env : Env) :
  ALLOW_ORIGINS env = None \/ ALLOW_ORIGINS env = Some [] ->
  Configured env [].
Proof. unfold Configured. intros [-> | ->]; reflexivity. Qed.

(** C2. The configuration is parsed before the [try] block: when
    [ALLOW_ORIGINS] is not JSON text, the [SyntaxError] of the parser leaves
    [fetch] for every request, no response is made and no allowlist, empty
    or not, is reached. *)
Theorem malformed_config_escapes
    {B : Type} {SITE : Bucket B} (host : Host)
    (req : Request) (env : Env) (site : B) (e : exn) :
  Json.parse (or_else (ALLOW_ORIGINS env) (str "[]")) = Throw e ->
  fetch host req env site = (Throw e, site).
Proof.
  intros H. unfold fetch, bind, lift. rewrite H. reflexivity.
Qed.

Lemma malformed_config_escapes_witness :
  exists msg,
    Json.parse (or_else (ALLOW_ORIGINS Demo.bare_origin_env) (str "[]"))
    = Throw (SyntaxError msg) /\
    fetch Demo.engine Demo.ping Demo.bare_origin_env Demo.empty
    = (Throw (SyntaxError msg), Demo.empty).
Proof.
  eexists.
  assert (H : Json.parse (or_else (ALLOW_ORIGINS Demo.bare_origin_env)
                                  (str "[]"))
              = Throw (SyntaxError (str "Unexpected token in JSON")))
    by (vm_compute; reflexivity).
  split; [exact H|].
  exact (malformed_config_escapes Demo.engine Demo.ping Demo.bare_origin_env
           Demo.empty (SyntaxError (str "Unexpected token in JSON")) H).
Defined.

(** C3. With an allowlist configured, a request whose method is OPTIONS is
    answered with status 204, no body and the CORS headers alone, whatever
    its path; the answer is made from the origin and the allowlist only,
    and the bucket is left as it was. *)
Theorem preflight_short_circuit
    {B : Type} {SITE : Bucket B} (host : Host)
    (req : Request) (env : Env) (origins : list value) (site : B) :
  Configured env origins ->
  method req = str "OPTIONS" ->
  let origin := request_origin req in
  let allow := Array_includes origins origin in
  let r := {| status := 204;
              resp_headers := corsHeaders allow origin;
              body := NoBody |} in
  fetch host req env site = (OK r, site) /\
  CorsOk allow origin r /\
  Forall (fun kv => In (fst kv) cors_names) (resp_headers r).
Proof.
  intros Hc Hm origin allow r. split; [|split].
  - rewrite (fetch_Configured host req env origins site Hc). simpl.
    rewrite Hm. reflexivity.
  - unfold r. destruct allow; repeat split; reflexivity.
  - unfold r. simpl. destruct allow; simpl;
      repeat (constructor; [simpl; tauto|]); constructor.
Qed.

Lemma preflight_short_circuit_witness :
  Configured Demo.env [VStr Demo.site_origin] /\
  method Demo.preflight_nowhere = str "OPTIONS" /\
  fetch Demo.engine Demo.preflight_nowhere Demo.env Demo.empty
  = (OK {| status := 204;
           resp_headers := corsHeaders true Demo.site_origin;
           body := NoBody |}, Demo.empty).
Proof.
  assert (Hc : Configured Demo.env [VStr Demo.site_origin])
    by (vm_compute; reflexivity).
  assert (Hm : method Demo.preflight_nowhere = str "OPTIONS") by reflexivity.
  split; [exact Hc|]. split; [exact Hm|].
  exact (proj1 (preflight_short_circuit Demo.engine Demo.preflight_nowhere
                  Demo.env [VStr Demo.site_origin] Demo.empty Hc Hm)).
Defined.

(* ================================================================== *)
(** * Routes *)
(* ================================================================== *)

Section RouteFacts.

Context {B : Type} {SITE : Bucket B}.
Variable host : Host.
Variable req : Request.
Variable allow : bool.
Variable origin : jsstring.

Ltac route Hp Hm :=
  unfold router, path_is, method_is; rewrite Hp, Hm; reflexivity.

Lemma route_list :
  pathname req = str "/api/list" -> method req = str "GET" ->
  router host req allow origin = api_list host req allow origin.
Proof. intros Hp Hm. route Hp Hm. Qed.

Lemma route_read :
  pathname req = str "/api/read" -> method req = str "GET" ->
  router host req allow origin = api_read (B := B) req allow origin.
Proof. intros Hp Hm. route Hp Hm. Qed.

Lemma route_write :
  pathname req = str "/api/write" -> method req = str "POST" ->
  router host req allow origin = api_write (B := B) req allow origin.
Proof. intros Hp Hm. route Hp Hm. Qed.

Lemma route_apply_diff :
  pathname req = str "/api/apply-diff" -> method req = str "POST" ->
  router host req allow origin = api_apply_diff (B := B) req allow origin.
Proof. intros Hp Hm. route Hp Hm. Qed.

Lemma route_generate_html :
  pathname req = str "/api/generate-html" -> method req = str "POST" ->
  router host req allow origin = api_generate_html host req allow origin.
Proof. intros Hp Hm. route Hp Hm. Qed.

Lemma route_analyze_cors :
  pathname req = str "/api/analyze-cors" -> method req = str "POST" ->
  router host req allow origin = api_analyze_cors host req allow origin.
Proof. intros Hp Hm. route Hp Hm. Qed.

Lemma route_upload :
  pathname req = str "/api/upload" -> method req = str "POST" ->
  router host req allow origin = api_upload host req allow origin.
Proof. intros Hp Hm. route Hp Hm. Qed.

(** A route that starts with [safeJson] throws what the parser throws. *)
Lemma json_route_throws (e : exn) (site : B) :
  In (pathname req) json_routes -> method req = str "POST" ->
  safeJson req = Throw e ->
  router host req allow origin site = (Throw e, site).
Proof.
  intros Hin Hm Hs. simpl in Hin.
  destruct Hin as [Hp|[Hp|[Hp|[Hp|[]]]]]; symmetry in Hp.
  - rewrite (route_write Hp Hm). unfold api_write, bind, lift.
    rewrite Hs. reflexivity.
  - rewrite (route_apply_diff Hp Hm). unfold api_apply_diff, bind, lift.
    rewrite Hs. reflexivity.
  - rewrite (route_generate_html Hp Hm). unfold api_generate_html, bind, lift.
    rewrite Hs. reflexivity.
  - rewrite (route_analyze_cors Hp Hm). unfold api_analyze_cors, bind, lift.
    rewrite Hs. reflexivity.
Qed.


End RouteFacts.

Lemma POST_is_not_OPTIONS (req : Request) :
  method req = str "POST" -> method req <> str "OPTIONS".
Proof. intros -> H. discriminate H. Qed.

Lemma GET_is_not_OPTIONS (req : Request) :
  method req = str "GET" -> method req <> str "OPTIONS".
Proof. intros -> H. discriminate H. Qed.

(* ================================================================== *)
(** * JSON bodies *)
(* ================================================================== *)



(* ================================================================== *)
(** * The generated placeholder *)
(* ================================================================== *)



Lemma escapeHtml_heading (prompt : value) :
  printable_prompt prompt ->
  escapeHtml_value (if truthy prompt then prompt else VStr (str "New Section"))
  = OK (escapeHtml (heading_text prompt)).
Proof.
  intros [Hf | [s ->]].
  - rewrite Hf. destruct prompt as [| |b|m e|s|l|l]; simpl in *;
      try reflexivity; try discriminate.
    destruct s; [reflexivity | discriminate].
  - destruct s; reflexivity.
Qed.




(* ================================================================== *)
(** * Batches of writes *)
(* ================================================================== *)

Lemma get_get_opt (f : value) (k : jsstring) :
  f <> VNull -> f <> VUndefined -> get f k = OK (get_opt f k).
Proof.
  intros Hn Hu. destruct f; try reflexivity; try contradiction.
  simpl. destruct (lookup k members); reflexivity.
Qed.

Lemma writes_of_cons (f : value) (files : list value) :
  writes_of (f :: files) = writes_of [f] ++ writes_of files.
Proof. unfold writes_of. simpl. rewrite app_nil_r. reflexivity. Qed.

Section Batches.

Context {B : Type} {SITE : Bucket B}.

(** One turn of the loop on a well-formed entry: nothing for an entry
    without a path, the write of the entry otherwise. *)
Lemma apply_file_step (f : value) (site : B) :
  well_formed_entry f ->
  apply_file f site
  = match put_all site (writes_of [f]) with
    | OK site' => (OK tt, site')
    | Throw e => (Throw e, site)
    end.
Proof.
  intros (Hn & Hu & Hp). unfold apply_file, bind, lift, writes_of.
  rewrite (get_get_opt f (str "path") Hn Hu). simpl.
  destruct Hp as [Hf | [p Hp]].
  - rewrite Hf. simpl.
    destruct (get_opt f (str "path")) as [| |b|m e|[|c p]|l|l];
      try reflexivity; discriminate Hf.
  - rewrite Hp. destruct p as [|c p]; [reflexivity|]. simpl.
    rewrite (get_get_opt f (str "content") Hn Hu).
    unfold SITE_put.
    destruct (bucket_put site (c :: p)
                (Content (nullish (get_opt f (str "content")) (VStr [])))
                (contentType (c :: p))); reflexivity.
Qed.

Lemma put_all_app (site : B) (ws1 ws2 : list (jsstring * Payload * jsstring)) :
  put_all site (ws1 ++ ws2)
  = match put_all site ws1 with
    | OK site1 => put_all site1 ws2
    | Throw e => Throw e
    end.
Proof.
  revert site. induction ws1 as [|[[k d] ct] ws1 IH]; intros site; simpl.
  - reflexivity.
  - destruct (bucket_put site k d ct); [apply IH | reflexivity].
Qed.

(** The whole loop, when every write is accepted. *)
Lemma for_of_apply_file (files : list value) (site site' : B) :
  Forall well_formed_entry files ->
  put_all site (writes_of files) = OK site' ->
  for_of files apply_file site = (OK tt, site').
Proof.
  intros Hwf. revert site. induction Hwf as [|f files Hf Hfs IH];
    intros site Hput; simpl.
  - simpl in Hput. inversion Hput; reflexivity.
  - unfold bind. rewrite (apply_file_step f site Hf).
    rewrite writes_of_cons, put_all_app in Hput.
    destruct (put_all site (writes_of [f])) as [site1|e]; [|discriminate].
    apply IH. exact Hput.
Qed.

End Batches.

(** C4, as the code has it.  With an allowlist configured, for a POST to
    /api/apply-diff whose body is empty or JSON text: when [files] is an
    array whose entries are well formed and the bucket accepts the writes,
    exactly the entries whose path is a string that is not empty are
    written, in order, each as the write route stores a file (content
    defaulting to the empty string), the others are skipped, and the
    answer is ok true with [applied] the length of the whole array; when
    [files] is absent or not an array the answer is the 400 with the
    guidance text and the bucket is left as it was. *)
Theorem apply_diff_writes_and_counts
    {B : Type} {SITE : Bucket B} (host : Host)
    (req : Request) (env : Env) (origins : list value) (site : B)
    (payload : value) :
  Configured env origins ->
  method req = str "POST" ->
  pathname req = str "/api/apply-diff" ->
  safeJson req = OK payload ->
  let origin := request_origin req in
  let allow := Array_includes origins origin in
  (forall files site',
     get_opt payload (str "files") = VArr files ->
     Forall well_formed_entry files ->
     put_all site (writes_of files) = OK site' ->
     fetch host req env site
     = (OK (json (VObj [ok_true;
                        (str "applied", VNum (Z.of_nat (length files)) 0)])
                 allow origin 200), site')) /\
  (isArray (get_opt payload (str "files")) = false ->
   fetch host req env site
   = (OK (files_required_response allow origin), site)).
Proof.
  intros Hc Hm Hp Hs origin allow.
  rewrite (fetch_routed host req env origins site Hc
             (POST_is_not_OPTIONS req Hm)).
  fold origin allow. unfold try_catch.
  rewrite (route_apply_diff host req allow origin Hp Hm).
  unfold api_apply_diff, bind, lift. rewrite Hs. split.
  - intros files site' Hfiles Hwf Hput. rewrite Hfiles.
    rewrite (for_of_apply_file files site site' Hwf Hput). reflexivity.
  - intros Hna.
    destruct (get_opt payload (str "files")); try reflexivity.
    discriminate Hna.
Qed.

Lemma apply_diff_writes_and_counts_witness :
  fetch Demo.engine Demo.apply_two_files Demo.env Demo.empty
  = (OK (json (VObj [ok_true; (str "applied", VNum 2 0)]) false [] 200),
     Demo.with_a).
Proof.
  assert (Hc : Configured Demo.env [VStr Demo.site_origin])
    by (vm_compute; reflexivity).
  pose (files := [ VObj [(str "path", VStr (str "a"));
                         (str "content", VStr (str "1"))];
                   VObj [(str "content", VStr (str "2"))] ]).
  assert (Hs : safeJson Demo.apply_two_files
               = OK (VObj [(str "files", VArr files)]))
    by (vm_compute; reflexivity).
  assert (Hwf : Forall well_formed_entry files).
  { apply Forall_cons; [|apply Forall_cons; [|apply Forall_nil]].
    - split; [discriminate|]. split; [discriminate|].
      right. exists (str "a"). reflexivity.
    - split; [discriminate|]. split; [discriminate|].
      left. reflexivity. }
  exact (proj1 (apply_diff_writes_and_counts Demo.engine Demo.apply_two_files
                  Demo.env [VStr Demo.site_origin] Demo.empty
                  (VObj [(str "files", VArr files)]) Hc eq_refl eq_refl Hs)
               files Demo.with_a eq_refl Hwf eq_refl).
Defined.

(** C4 as stated fails: in a [files] array holding a file and [null], the
    file is written, reading [path] of [null] throws a [TypeError], and
    the answer is the 500 of the catch block, not ok true with [applied]
    at 2. *)
Lemma apply_diff_null_entry :
  exists msg,
    fetch Demo.engine Demo.apply_file_and_null Demo.env Demo.empty
    = (OK (server_error_response (TypeError msg) false []), Demo.with_a) /\
    status (server_error_response (TypeError msg) false []) = 500%Z.
Proof. eexists. split; [vm_compute|]; reflexivity. Qed.

(* ================================================================== *)
(** * Write, then read *)
(* ================================================================== *)

Lemma store_find_text (e : Demo.entry) (es : list Demo.entry) :
  Demo.find_text (Demo.e_key e) (Demo.store e es) = Some (Demo.e_text e).
Proof.
  induction es as [|e' es IH]; simpl.
  - rewrite streq_refl. reflexivity.
  - destruct (streq (Demo.e_key e') (Demo.e_key e)) eqn:E; simpl.
    + rewrite streq_refl. reflexivity.
    + rewrite E. exact IH.
Qed.

(** The bucket held in memory is a store as the specification describes
    it. *)
Lemma memory_StoreLaws : StoreLaws Demo.bucket Demo.all_objects.
Proof.
  split.
  - intros b prefix.
    exists (length (filter (fun o => startsWith (key o) prefix)
                           (Demo.all_objects b))).
    rewrite firstn_all. reflexivity.
  - intros b k c ctype. eexists. reflexivity.
  - intros b k c ctype b' H. simpl in H. inversion H; subst b'. simpl.
    unfold Demo.write. simpl.
    rewrite (store_find_text
               {| Demo.e_key := k; Demo.e_text := c; Demo.e_type := ctype;
                  Demo.e_uploaded := Some (Demo.clock b) |}).
    reflexivity.
Qed.

(** C5. With an allowlist configured and a store as the specification
    describes it: after a POST to /api/write whose body gives a path [p]
    that is not empty and a string content [c], a GET of /api/read for [p]
    on the bucket the write left is answered 200 with the body [c] and the
    Content-Type the classifier gives for [p]. *)
Theorem write_then_read
    {B : Type} {SITE : Bucket B} (entries : B -> list R2Object)
    (laws : StoreLaws B entries) (host : Host)
    (env : Env) (origins : list value) (site : B)
    (w r : Request) (parsed : value) (p c : jsstring) :
  Configured env origins ->
  method w = str "POST" ->
  pathname w = str "/api/write" ->
  safeJson w = OK parsed ->
  get parsed (str "path") = OK (VStr p) ->
  get parsed (str "content") = OK (VStr c) ->
  p <> [] ->
  method r = str "GET" ->
  pathname r = str "/api/read" ->
  first_of (str "path") (searchParams r) = Some p ->
  exists written served site' site'',
    fetch host w env site = (OK written, site') /\
    status written = 200%Z /\
    fetch host r env site' = (OK served, site'') /\
    status served = 200%Z /\
    body served = Text c /\
    Headers_get (resp_headers served) (str "Content-Type")
      = Some (contentType p).
Proof.
  intros Hc Hwm Hwp Hs Hpath Hcontent Hne Hrm Hrp Hq.
  destruct (put_text_succeeds site p c (contentType p)) as [site' Hput].
  pose proof (get_after_put site p c (contentType p) site' Hput) as Hget.
  destruct p as [|a p]; [contradiction|].
  do 2 eexists. exists site', site'.
  split; [|split; [|split; [|split; [|split]]]].
  - rewrite (fetch_routed host w env origins site Hc
               (POST_is_not_OPTIONS w Hwm)).
    unfold try_catch. rewrite (route_write host w _ _ Hwp Hwm).
    unfold api_write, bind, lift. rewrite Hs, Hpath, Hcontent. simpl.
    unfold SITE_put. rewrite Hput. reflexivity.
  - reflexivity.
  - rewrite (fetch_routed host r env origins site' Hc
               (GET_is_not_OPTIONS r Hrm)).
    unfold try_catch. rewrite (route_read host r _ _ Hrp Hrm).
    unfold api_read, bind, SITE_get. rewrite Hq, Hget. reflexivity.
  - reflexivity.
  - reflexivity.
  - simpl. destruct (Array_includes origins (request_origin r)); reflexivity.
Qed.

Lemma write_then_read_witness :
  exists written served site' site'',
    fetch Demo.engine Demo.write_x Demo.env Demo.empty = (OK written, site') /\
    status written = 200%Z /\
    fetch Demo.engine Demo.read_x Demo.env site' = (OK served, site'') /\
    status served = 200%Z /\
    body served = Text (str "<p>hi</p>") /\
    Headers_get (resp_headers served) (str "Content-Type")
      = Some (str "text/html; charset=utf-8").
Proof.
  assert (Hc : Configured Demo.env [VStr Demo.site_origin])
    by (vm_compute; reflexivity).
  assert (Hs : safeJson Demo.write_x
               = OK (VObj [(str "path", VStr (str "x.html"));
                           (str "content", VStr (str "<p>hi</p>"))]))
    by (vm_compute; reflexivity).
  assert (Hne : str "x.html" <> []) by (vm_compute; discriminate).
  exact (write_then_read Demo.all_objects memory_StoreLaws Demo.engine
           Demo.env [VStr Demo.site_origin] Demo.empty
           Demo.write_x Demo.read_x
           (VObj [(str "path", VStr (str "x.html"));
                  (str "content", VStr (str "<p>hi</p>"))])
           (str "x.html") (str "<p>hi</p>")
           Hc eq_refl eq_refl Hs eq_refl eq_refl Hne eq_refl eq_refl eq_refl).
Defined.

(* ================================================================== *)
(** * Uploads *)
(* ================================================================== *)

Lemma sanitize_keeps_kept (c : N) :
  sanitize_keeps c = true <-> kept_by_sanitize c.
Proof.
  unfold sanitize_keeps, kept_by_sanitize.
  rewrite !orb_true_iff, !andb_true_iff, !N.leb_le, !N.eqb_eq. tauto.
Qed.


Lemma sanitize_no_slash (name : option jsstring) :
  Forall (fun c => c <> 47%N) (sanitize name).
Proof.
  unfold sanitize. apply Forall_map, Forall_forall. intros c _.
  destruct (sanitize_keeps c) eqn:E; [|discriminate].
  intros ->. discriminate E.
Qed.

Lemma uint_digits_are_digits (d : Decimal.uint) :
  Forall (fun c => (48 <= c <= 57)%N) (uint_digits d).
Proof. induction d; simpl; constructor; auto; lia. Qed.


Lemma decimal_no_slash (z : Z) : Forall (fun c => c <> 47%N) (decimal z).
Proof.
  assert (Hd : forall d, Forall (fun c => c <> 47%N) (uint_digits d)).
  { intros d. eapply Forall_impl; [|apply uint_digits_are_digits].
    simpl. intros c H. lia. }
  destruct z; simpl.
  - constructor; [discriminate | constructor].
  - apply Hd.
  - constructor; [discriminate | apply Hd].
Qed.

Lemma split_slash_no_slash (s : jsstring) :
  Forall (fun c => c <> 47%N) s -> split_slash s = [s].
Proof.
  induction 1 as [|c s Hc Hs IH]; simpl; [reflexivity|].
  apply N.eqb_neq in Hc. rewrite Hc, IH. reflexivity.
Qed.

Lemma split_slash_at_slash (a b : jsstring) :
  Forall (fun c => c <> 47%N) a ->
  split_slash (a ++ 47%N :: b) = a :: split_slash b.
Proof.
  induction 1 as [|c a Hc Ha IH]; simpl; [reflexivity|].
  apply N.eqb_neq in Hc. rewrite Hc, IH. reflexivity.
Qed.




(* ================================================================== *)
(** * Listings *)
(* ================================================================== *)

(** The loop that pushes one item for each object builds the list of the
    items, in the order of the objects. *)
Lemma push_loop_is_map {A C : Type} (f : A -> C) (xs : list A) (acc : list C) :
  fold_left (fun items x => items ++ [f x]) xs acc = acc ++ map f xs.
Proof.
  revert acc. induction xs as [|x xs IH]; intros acc; simpl.
  - rewrite app_nil_r. reflexivity.
  - rewrite IH, <- app_assoc. reflexivity.
Qed.

(** C8.  The list route cannot read the listing of the R2 binding.  With
    an allowlist configured, when [env.SITE.list] returns the promise of
    a listing, as the R2 bucket that [worker.js] binds to [SITE] does,
    [for await] finds nothing to iterate and throws a [TypeError]: a GET
    of /api/list is answered with the 500 of the catch block, whatever
    the prefix and whatever the bucket holds, and not with ok true and
    the items. *)
Theorem list_route_cannot_iterate_a_promise
    {B : Type} {SITE : Bucket B} (host : Host)
    (req : Request) (env : Env) (origins : list value) (site : B)
    (objects : list R2Object) :
  Configured env origins ->
  method req = str "GET" ->
  pathname req = str "/api/list" ->
  bucket_list site (or_else (first_of (str "prefix") (searchParams req)) [])
  = OK (Promised objects) ->
  exists msg,
    fetch host req env site
    = (OK (server_error_response (TypeError msg)
             (Array_includes origins (request_origin req))
             (request_origin req)), site).
Proof.
  intros Hc Hm Hp Hlist.
  rewrite (fetch_routed host req env origins site Hc
             (GET_is_not_OPTIONS req Hm)).
  unfold try_catch.
  rewrite (route_list host req _ _ Hp Hm).
  unfold api_list, bind, SITE_list, lift. rewrite Hlist.
  eexists. reflexivity.
Qed.

Lemma list_route_cannot_iterate_a_promise_witness :
  exists msg,
    fetch Demo.engine Demo.list_all Demo.env Demo.with_a
    = (OK (server_error_response (TypeError msg) false []), Demo.with_a).
Proof.
  assert (Hc : Configured Demo.env [VStr Demo.site_origin])
    by (vm_compute; reflexivity).
  exact (list_route_cannot_iterate_a_promise Demo.engine Demo.list_all
           Demo.env [VStr Demo.site_origin] Demo.with_a
           [{| key := str "a"; size := 1; uploaded := Some 0%Z |}]
           Hc eq_refl eq_refl eq_refl).
Defined.

(** X24. The loop of the list route, on a value it can iterate.  With an
    allowlist configured, when [env.SITE.list] returns a sequence of
    objects, a GET of /api/list is answered ok true with one item for
    each object, in the order of the sequence; an item has the [key] and
    the [size] of the object and, under the name [uploaded], the ISO text
    of the date the object has under [uploaded], or nothing when it has
    none.  No item has a member [uploadedAt], and the bucket is not
    touched. *)
Theorem list_route_on_a_sequence
    {B : Type} {SITE : Bucket B} (host : Host)
    (req : Request) (env : Env) (origins : list value) (site : B)
    (objs : list R2Object) :
  Configured env origins ->
  method req = str "GET" ->
  pathname req = str "/api/list" ->
  bucket_list site (or_else (first_of (str "prefix") (searchParams req)) [])
  = OK (Sequence objs) ->
  let item (o : R2Object) :=
    VObj [ (str "key", VStr (key o));
           (str "size", VNum (size o) 0);
           (str "uploaded",
            match uploaded o with
            | Some t => VStr (toISOString host t)
            | None => VUndefined
            end) ] in
  fetch host req env site
  = (OK (json (VObj [ok_true; (str "items", VArr (map item objs))])
              (Array_includes origins (request_origin req))
              (request_origin req) 200), site) /\
  Forall (fun it => get_opt it (str "uploadedAt") = VUndefined)
         (map item objs).
Proof.
  intros Hc Hm Hp Hlist item. split.
  - rewrite (fetch_routed host req env origins site Hc
               (GET_is_not_OPTIONS req Hm)).
    unfold try_catch.
    rewrite (route_list host req _ _ Hp Hm).
    unfold api_list, bind, SITE_list, lift. rewrite Hlist. simpl iterate.
    cbv beta iota. rewrite push_loop_is_map. reflexivity.
  - apply Forall_map, Forall_forall. intros o _. reflexivity.
Qed.

Lemma list_route_on_a_sequence_witness :
  fetch Demo.engine Demo.list_all Demo.env Cases.two_on_the_shelf
  = (OK (json (VObj [ok_true;
                     (str "items",
                      VArr [VObj [ (str "key", VStr (str "b.css"));
                                   (str "size", VNum 12 0);
                                   (str "uploaded",
                                    VStr (str "1970-01-01T00:00:00.000Z")) ];
                            VObj [ (str "key", VStr (str "a.html"));
                                   (str "size", VNum 40 0);
                                   (str "uploaded", VUndefined) ]])])
              false [] 200), Cases.two_on_the_shelf).
Proof.
  assert (Hc : Configured Demo.env [VStr Demo.site_origin])
    by (vm_compute; reflexivity).
  exact (proj1 (list_route_on_a_sequence Demo.engine Demo.list_all Demo.env
                  [VStr Demo.site_origin] Cases.two_on_the_shelf
                  Cases.two_on_the_shelf Hc eq_refl eq_refl eq_refl)).
Defined.

(* ================================================================== *)
(** * The advisory rules of analyze-cors *)
(* ================================================================== *)

Lemma header_missing_spec (h : headers) (name : jsstring) :
  header_missing h name = true <-> absent_or_empty h name.
Proof.
  unfold header_missing, absent_or_empty.
  destruct (lookup name h) as [[|c v]|]; split; intros H;
    try reflexivity; try discriminate; auto.
  - destruct H as [H|H]; discriminate H.
Qed.

Lemma header_missing_false (h : headers) (name : jsstring) :
  header_missing h name = false <-> ~ absent_or_empty h name.
Proof.
  rewrite <- header_missing_spec.
  destruct (header_missing h name); split; congruence.
Qed.

(** X1. [corsSuggestions] never returns an empty list and never more than
    three lines; each of the three advices is in the result exactly when
    its header is missing from the map or empty, and the message that CORS
    looks okay is there exactly when none of the three is. *)
Theorem corsSuggestions_characterised (h : headers) :
  corsSuggestions h <> [] /\
  (length (corsSuggestions h) <= 3)%nat /\
  (In advice_origin (corsSuggestions h)
   <-> absent_or_empty h (str "access-control-allow-origin")) /\
  (In advice_methods (corsSuggestions h)
   <-> absent_or_empty h (str "access-control-allow-methods")) /\
  (In advice_headers (corsSuggestions h)
   <-> absent_or_empty h (str "access-control-allow-headers")) /\
  (In looks_okay (corsSuggestions h)
   <-> ~ absent_or_empty h (str "access-control-allow-origin") /\
       ~ absent_or_empty h (str "access-control-allow-methods") /\
       ~ absent_or_empty h (str "access-control-allow-headers")).
Proof.
  rewrite <- !header_missing_false, <- !header_missing_spec.
  unfold corsSuggestions.
  destruct (header_missing h (str "access-control-allow-origin"));
    destruct (header_missing h (str "access-control-allow-methods"));
    destruct (header_missing h (str "access-control-allow-headers"));
    cbn [app];
    (split; [discriminate|]); (split; [simpl; lia|]);
    repeat match goal with |- _ /\ _ => split end;
    (split; intros H);
    first
      [ reflexivity
      | discriminate H
      | solve [destruct H as (H1 & H2 & H3); discriminate]
      | solve [split; [reflexivity | split; reflexivity]]
      | solve [simpl; auto 6]
      | exfalso; simpl in H;
        repeat (destruct H as [H|H]; [vm_compute in H; discriminate H|]);
        exact H ].
Qed.

(* ================================================================== *)
(** * Escaping and sanitizing *)
(* ================================================================== *)

(** The six forms of [escape_char]. *)
Lemma escape_char_cases (c : N) :
  (c = 38%N /\ escape_char c = str "&amp;") \/
  (c = 60%N /\ escape_char c = str "&lt;") \/
  (c = 62%N /\ escape_char c = str "&gt;") \/
  (c = 34%N /\ escape_char c = str "&quot;") \/
  (c = 39%N /\ escape_char c = str "&#39;") \/
  (~ escaped_char c /\ escape_char c = [c]).
Proof.
  destruct (N.eq_dec c 38) as [->|H38]; [tauto|].
  destruct (N.eq_dec c 60) as [->|H60]; [tauto|].
  destruct (N.eq_dec c 62) as [->|H62]; [tauto|].
  destruct (N.eq_dec c 34) as [->|H34]; [tauto|].
  destruct (N.eq_dec c 39) as [->|H39]; [tauto|].
  do 5 right. split.
  - unfold escaped_char, dquote. intros [E|[E|[E|[E|E]]]]; congruence.
  - unfold escape_char.
    repeat match goal with
           | |- context [match ?x with _ => _ end] =>
               destruct x; try reflexivity; try congruence
           end.
Qed.

Lemma escapeHtml_cons (c : N) (s : jsstring) :
  escapeHtml (c :: s) = escape_char c ++ escapeHtml s.
Proof. reflexivity. Qed.

Lemma escapeHtml_length (s : jsstring) :
  (length s <= length (escapeHtml s))%nat.
Proof.
  induction s as [|c s IH]; [apply le_n|].
  rewrite escapeHtml_cons, length_app. simpl length at 1.
  destruct (escape_char_cases c)
    as [[_ E]|[[_ E]|[[_ E]|[[_ E]|[[_ E]|[_ E]]]]]];
    rewrite E; simpl; lia.
Qed.

(** X2. [escapeHtml] loses nothing: two strings with the same escaped form
    are the same string. *)
Theorem escapeHtml_injective (a b : jsstring) :
  escapeHtml a = escapeHtml b <-> a = b.
Proof.
  split; [|intros ->; reflexivity].
  revert b. induction a as [|x a IH]; intros [|y b] H.
  - reflexivity.
  - exfalso. rewrite escapeHtml_cons in H.
    destruct (escape_char_cases y)
      as [[_ E]|[[_ E]|[[_ E]|[[_ E]|[[_ E]|[_ E]]]]]];
      rewrite E in H; discriminate H.
  - exfalso. rewrite escapeHtml_cons in H.
    destruct (escape_char_cases x)
      as [[_ E]|[[_ E]|[[_ E]|[[_ E]|[[_ E]|[_ E]]]]]];
      rewrite E in H; discriminate H.
  - rewrite !escapeHtml_cons in H.
    destruct (escape_char_cases x)
      as [[Hx Ex]|[[Hx Ex]|[[Hx Ex]|[[Hx Ex]|[[Hx Ex]|[Hx Ex]]]]]];
      destruct (escape_char_cases y)
        as [[Hy Ey]|[[Hy Ey]|[[Hy Ey]|[[Hy Ey]|[[Hy Ey]|[Hy Ey]]]]]];
      rewrite Ex, Ey in H; simpl in H;
      try discriminate H;
      try (injection H as H; subst; f_equal; apply IH; assumption);
      try (injection H as H0 H; exfalso; subst;
           first [ apply Hx | apply Hy ];
           unfold escaped_char, dquote; tauto).
Qed.

(** X3. The strings [escapeHtml] leaves as they are are the strings with
    none of the five characters; on any other string the result is
    longer, so escaping twice is not escaping once. *)
Theorem escapeHtml_fixed_points (s : jsstring) :
  (escapeHtml s = s <-> Forall (fun c => ~ escaped_char c) s) /\
  (escapeHtml (escapeHtml s) = escapeHtml s
   <-> Forall (fun c => ~ escaped_char c) s).
Proof.
  assert (Hfix : forall t, escapeHtml t = t
                           <-> Forall (fun c => ~ escaped_char c) t).
  { intros t. split.
    - induction t as [|c t IH]; intros H; constructor.
      + rewrite escapeHtml_cons in H.
        pose proof (escapeHtml_length t) as Hlen.
        destruct (escape_char_cases c)
          as [[Hc E]|[[Hc E]|[[Hc E]|[[Hc E]|[[Hc E]|[Hc E]]]]]];
          rewrite E in H; simpl in H; try exact Hc;
          injection H as H0 H; exfalso;
          first [ congruence
                | apply (f_equal (@length N)) in H; simpl in H; lia ].
      + apply IH. rewrite escapeHtml_cons in H.
        pose proof (escapeHtml_length t) as Hlen.
        destruct (escape_char_cases c)
          as [[Hc E]|[[Hc E]|[[Hc E]|[[Hc E]|[[Hc E]|[Hc E]]]]]];
          rewrite E in H; simpl in H;
          first
            [ injection H as H; exact H
            | injection H as H0 H; exfalso;
              first [ congruence
                    | apply (f_equal (@length N)) in H; simpl in H; lia ] ].
    - induction 1 as [|c t Hc Ht IH]; [reflexivity|].
      rewrite escapeHtml_cons, IH.
      destruct (escape_char_cases c)
        as [[Hx E]|[[Hx E]|[[Hx E]|[[Hx E]|[[Hx E]|[Hx E]]]]]];
        try (exfalso; apply Hc; unfold escaped_char, dquote; tauto).
      rewrite E. reflexivity. }
  split; [apply Hfix|].
  rewrite escapeHtml_injective. apply Hfix.
Qed.

Lemma sanitize_char_kept (c : N) :
  kept_by_sanitize (if sanitize_keeps c then c else 95%N).
Proof.
  destruct (sanitize_keeps c) eqn:E.
  - apply sanitize_keeps_kept, E.
  - unfold kept_by_sanitize. tauto.
Qed.

(** X4. The result of [sanitize] holds only letters, digits, dots,
    underscores and hyphens and has the length of the name; sanitizing it
    again changes nothing; and the names [sanitize] leaves as they are are
    the names that hold only such code units. *)
Theorem sanitize_output (name : option jsstring) :
  let n := match name with Some n => n | None => str "file" end in
  Forall kept_by_sanitize (sanitize name) /\
  length (sanitize name) = length n /\
  sanitize (Some (sanitize name)) = sanitize name /\
  (sanitize name = n <-> Forall kept_by_sanitize n).
Proof.
  intros n. unfold sanitize. fold n. clearbody n. clear name.
  split; [|split; [|split]].
  - apply Forall_map, Forall_forall. intros c _. apply sanitize_char_kept.
  - apply length_map.
  - rewrite map_map. apply map_ext. intros c.
    pose proof (sanitize_char_kept c) as H.
    apply sanitize_keeps_kept in H. rewrite H. reflexivity.
  - induction n as [|c n IH]; simpl.
    + split; [constructor | reflexivity].
    + split.
      * intros H. injection H as Hc Hn. constructor; [|apply IH, Hn].
        rewrite <- Hc. apply sanitize_char_kept.
      * intros H. inversion H as [|? ? Hc Hn]; subst.
        apply sanitize_keeps_kept in Hc. rewrite Hc.
        f_equal. apply IH, Hn.
Qed.

(* ================================================================== *)
(** * The classifier and the case of the suffix *)
(* ================================================================== *)

Lemma endsWith_app (pre a b : jsstring) :
  (length b <= length a)%nat -> endsWith (pre ++ a) b = endsWith a b.
Proof.
  intros Hle. unfold endsWith. rewrite length_app.
  replace (length b <=? length pre + length a)%nat with true
    by (symmetry; apply Nat.leb_le; lia).
  replace (length b <=? length a)%nat with true
    by (symmetry; apply Nat.leb_le; lia).
  rewrite skipn_app.
  rewrite (skipn_all2 pre) by lia.
  replace (length pre + length a - length b - length pre)%nat
    with (length a - length b)%nat by lia.
  reflexivity.
Qed.

(** Two suffixes of one string: the shorter is a suffix of the longer. *)
Lemma suffixes_nest (q a b : jsstring) :
  endsWith q a = true -> endsWith q b = true ->
  endsWith a b = true \/ endsWith b a = true.
Proof.
  intros Ha Hb.
  apply endsWith_HasSuffix in Ha. destruct Ha as [p1 ->].
  pose proof Hb as Hb'. apply endsWith_HasSuffix in Hb'.
  destruct Hb' as [p2 E].
  destruct (Nat.le_ge_cases (length b) (length a)) as [Hle|Hle].
  - left. rewrite <- (endsWith_app p1 a b Hle). exact Hb.
  - right. rewrite <- (endsWith_app p2 b a Hle), <- E.
    apply endsWith_HasSuffix. exists p1. reflexivity.
Qed.

Lemma endsWith_lower (p t : jsstring) :
  endsWith p t = true ->
  endsWith (toLowerCase_ascii p) (toLowerCase_ascii t) = true.
Proof.
  intros H. apply endsWith_HasSuffix in H. destruct H as [pre ->].
  apply endsWith_HasSuffix. exists (toLowerCase_ascii pre).
  apply map_app.
Qed.

(** X5. The suffixes [.html], [.css] and [.js] are compared with case,
    unlike the image suffixes: a path that ends in one of them written
    with some capital letter is classified as plain text. *)
Theorem contentType_markup_suffix_is_case_sensitive (p ext : jsstring) :
  In ext [str ".html"; str ".css"; str ".js"] ->
  HasSuffixNoCase p ext ->
  ~ HasSuffix p ext ->
  contentType p = str "text/plain; charset=utf-8".
Proof.
  intros Hext Hno Hcase.
  apply endsWith_lower_NoCase in Hno. apply endsWith_false in Hcase.
  assert (Hother : forall t, toLowerCase_ascii t = t ->
                     endsWith ext t = false -> endsWith t ext = false ->
                     endsWith p t = false).
  { intros t Ht H1 H2. destruct (endsWith p t) eqn:E; [|reflexivity].
    apply endsWith_lower in E. rewrite Ht in E.
    destruct (suffixes_nest _ _ _ Hno E); congruence. }
  assert (Himg : image_regex_test p = false).
  { unfold image_regex_test. apply not_true_is_false. intros H.
    apply existsb_exists in H. destruct H as (s & Hin & Hs).
    destruct (suffixes_nest _ _ _ Hno Hs) as [H|H];
      simpl in Hext, Hin;
      destruct Hext as [<-|[<-|[<-|[]]]];
      destruct Hin as [<-|[<-|[<-|[<-|[<-|[<-|[]]]]]]];
      discriminate H. }
  unfold contentType.
  simpl in Hext. destruct Hext as [<-|[<-|[<-|[]]]].
  - rewrite Hcase, (Hother (str ".css")), (Hother (str ".js")), Himg;
      reflexivity.
  - rewrite (Hother (str ".html")), Hcase, (Hother (str ".js")), Himg;
      reflexivity.
  - rewrite (Hother (str ".html")), (Hother (str ".css")), Hcase, Himg;
      reflexivity.
Qed.

Lemma contentType_markup_suffix_is_case_sensitive_witness :
  contentType (str "index.HTML") = str "text/plain; charset=utf-8".
Proof.
  apply (contentType_markup_suffix_is_case_sensitive
           (str "index.HTML") (str ".html")).
  - simpl. tauto.
  - exists (str "index"), (str ".HTML"). split; reflexivity.
  - intros H. apply endsWith_HasSuffix in H. discriminate H.
Defined.

(* ================================================================== *)
(** * A configuration that is not a list *)
(* ================================================================== *)

Lemma startsWith_prefix (s t : jsstring) :
  startsWith s t = true <-> exists b, s = t ++ b.
Proof.
  unfold startsWith. rewrite streq_eq. split.
  - intros H. exists (skipn (length t) s).
    rewrite <- H at 1. symmetry. apply firstn_skipn.
  - intros [b ->]. rewrite firstn_app, firstn_all, Nat.sub_diag.
    simpl. apply app_nil_r.
Qed.

Lemma occurs_in_Occurs (t s : jsstring) :
  occurs_in t s = true <-> Occurs t s.
Proof.
  unfold Occurs. split.
  - induction s as [|c s IH]; simpl; rewrite orb_true_iff;
      intros [H|H]; try discriminate.
    + apply startsWith_prefix in H. destruct H as [b ->]. exists [], b.
      reflexivity.
    + apply startsWith_prefix in H. destruct H as [b H]. exists [], b.
      exact H.
    + destruct (IH H) as (a & b & ->). exists (c :: a), b. reflexivity.
  - intros (a & b & ->). induction a as [|c a IH].
    + assert (H : startsWith (t ++ b) t = true)
        by (apply startsWith_prefix; exists b; reflexivity).
      simpl app. destruct (t ++ b); simpl; rewrite H; reflexivity.
    + simpl. rewrite IH. apply orb_true_r.
Qed.

Section AnyConfiguration.

Context {B : Type} {SITE : Bucket B}.
Variable host : Host.

(** [fetch] once the configuration is parsed and the origin looked up. *)
Lemma fetch_parsed (req : Request) (env : Env) (origins : value)
    (allow : bool) (site : B) :
  Json.parse (or_else (ALLOW_ORIGINS env) (str "[]")) = OK origins ->
  includes origins (request_origin req) = OK allow ->
  fetch host req env site
  = if streq (method req) (str "OPTIONS")
    then (OK {| status := 204;
                resp_headers := corsHeaders allow (request_origin req);
                body := NoBody |}, site)
    else try_catch (router host req allow (request_origin req))
                   (server_error allow (request_origin req)) site.
Proof.
  intros Hp Hi. unfold fetch, bind, lift. rewrite Hp.
  fold (request_origin req). rewrite Hi.
  destruct (streq (method req) (str "OPTIONS")); reflexivity.
Qed.

(** The router inside its [try] always answers, with the CORS headers. *)
Lemma try_router_CorsOk (req : Request) (allow : bool) (origin : jsstring)
    (site : B) :
  exists r site',
    try_catch (router host req allow origin) (server_error allow origin) site
    = (OK r, site') /\ CorsOk allow origin r.
Proof.
  unfold try_catch.
  destruct (router host req allow origin site) as [[r|e] b1] eqn:E.
  - exists r, b1. split; [reflexivity|].
    exact (router_CorsOk host req allow origin site r b1 E).
  - eexists _, b1. split; [reflexivity|]. apply json_CorsOk.
Qed.

End AnyConfiguration.

(** X6. When [ALLOW_ORIGINS] is the JSON text of a string and not of a
    list, [origins.includes] is the substring test of strings: the
    response reflects the origin of the request exactly when that origin
    occurs somewhere in the configured string, so a request without an
    Origin header is answered with an empty Access-Control-Allow-Origin
    header. *)
Theorem string_config_allows_substrings
    {B : Type} {SITE : Bucket B} (host : Host)
    (req : Request) (env : Env) (s : jsstring) (site : B) :
  Json.parse (or_else (ALLOW_ORIGINS env) (str "[]")) = OK (VStr s) ->
  method req <> str "OPTIONS" ->
  exists r site',
    fetch host req env site = (OK r, site') /\
    (Occurs (request_origin req) s ->
     Headers_get (resp_headers r) (str "Access-Control-Allow-Origin")
       = Some (request_origin req)) /\
    (~ Occurs (request_origin req) s ->
     Headers_get (resp_headers r) (str "Access-Control-Allow-Origin") = None) /\
    (Headers_get (req_headers req) (str "Origin") = None ->
     Headers_get (resp_headers r) (str "Access-Control-Allow-Origin")
       = Some []).
Proof.
  intros Hp Hm.
  rewrite (fetch_parsed host req env (VStr s)
             (occurs_in (request_origin req) s) site Hp eq_refl).
  apply streq_neq in Hm. rewrite Hm.
  destruct (try_router_CorsOk host req (occurs_in (request_origin req) s)
              (request_origin req) site)
    as (r & site' & E & _ & _ & _ & Ho).
  exists r, site'. split; [exact E|]. split; [|split].
  - intros H. apply occurs_in_Occurs in H. rewrite Ho, H. reflexivity.
  - intros H. rewrite Ho.
    destruct (occurs_in (request_origin req) s) eqn:Eo; [|reflexivity].
    exfalso. apply H, occurs_in_Occurs, Eo.
  - intros Hnone. rewrite Ho. unfold request_origin. rewrite Hnone. simpl.
    assert (H : occurs_in [] s = true)
      by (apply occurs_in_Occurs; exists [], s; reflexivity).
    rewrite H. reflexivity.
Qed.

Lemma string_config_allows_substrings_witness :
  exists r site',
    fetch Demo.engine Demo.ping
          {| ALLOW_ORIGINS := Some (Demo.quoted "https://mb.meyoustudios.com") |}
          Demo.empty = (OK r, site') /\
    Headers_get (resp_headers r) (str "Access-Control-Allow-Origin") = Some [].
Proof.
  destruct (string_config_allows_substrings Demo.engine Demo.ping
              {| ALLOW_ORIGINS :=
                   Some (Demo.quoted "https://mb.meyoustudios.com") |}
              (str "https://mb.meyoustudios.com") Demo.empty)
    as (r & site' & E & _ & _ & H).
  - vm_compute. reflexivity.
  - vm_compute. discriminate.
  - exists r, site'. split; [exact E|]. apply H. reflexivity.
Defined.

(** X7. When [ALLOW_ORIGINS] is JSON text of a number, a boolean, [null] or
    an object, the value has no [includes] method: the call before the
    [try] block throws a [TypeError] that leaves [fetch], for every
    request, preflights included, and the bucket is not touched. *)
Theorem non_list_config_escapes
    {B : Type} {SITE : Bucket B} (host : Host)
    (req : Request) (env : Env) (v : value) (site : B) :
  Json.parse (or_else (ALLOW_ORIGINS env) (str "[]")) = OK v ->
  isArray v = false ->
  (forall s, v <> VStr s) ->
  exists msg, fetch host req env site = (Throw (TypeError msg), site).
Proof.
  intros Hp Ha Hs. unfold fetch, bind, lift. rewrite Hp.
  destruct v; try discriminate Ha; simpl; try (eexists; reflexivity).
  exfalso. exact (Hs s eq_refl).
Qed.

Lemma non_list_config_escapes_witness :
  exists msg,
    fetch Demo.engine Demo.preflight_nowhere
          {| ALLOW_ORIGINS := Some (str "{}") |} Demo.empty
    = (Throw (TypeError msg), Demo.empty).
Proof.
  apply (non_list_config_escapes Demo.engine Demo.preflight_nowhere
           {| ALLOW_ORIGINS := Some (str "{}") |} (VObj []) Demo.empty).
  - vm_compute. reflexivity.
  - reflexivity.
  - intros s H. discriminate H.
Defined.

(* ================================================================== *)
(** * What the router answers, and when the bucket changes *)
(* ================================================================== *)

Lemma envelope_ok (rest : list (jsstring * value)) (allow : bool)
    (origin : jsstring) :
  Envelope (json (VObj (ok_true :: rest)) allow origin 200).
Proof.
  unfold Envelope. simpl body. cbv iota.
  split; [destruct allow; reflexivity|]. left. split; reflexivity.
Qed.

Lemma envelope_error (rest : list (jsstring * value)) (allow : bool)
    (origin : jsstring) (st : Z) :
  In st [400; 404; 500; 501; 502]%Z ->
  Envelope (json (VObj (ok_false :: rest)) allow origin st).
Proof.
  intros H. unfold Envelope. simpl body. cbv iota.
  split; [destruct allow; reflexivity|]. right. split; [reflexivity|exact H].
Qed.

Section RouterAnswers.

Context {B : Type} {SITE : Bucket B}.
Variable host : Host.

Ltac envelope_tac :=
  repeat first
    [ apply returns_only_ret;
      first [ apply envelope_ok
            | apply envelope_error; simpl; tauto
            | reflexivity ]
    | apply returns_only_bind; intros
    | match goal with
      | |- returns_only _ (if ?c then _ else _) => destruct c
      | |- returns_only _ (match ?x with _ => _ end) => destruct x
      end ].

Lemma router_Envelope (req : Request) (allow : bool) (origin : jsstring) :
  returns_only (B := B) Envelope (router host req allow origin).
Proof.
  unfold router, api_ping, api_list, api_read, api_write, api_apply_diff,
    api_generate_html, api_analyze_cors, api_upload, api_deploy.
  envelope_tac.
Qed.

Lemma preserves_ret {A} (a : A) : preserves (B := B) (ret a).
Proof. intros b. reflexivity. Qed.

Lemma preserves_lift {A} (r : except A) : preserves (B := B) (lift r).
Proof. intros b. reflexivity. Qed.

Lemma preserves_bind {A C} (m : M B A) (k : A -> M B C) :
  preserves m -> (forall a, preserves (k a)) -> preserves (bind m k).
Proof.
  intros Hm Hk b. unfold bind. specialize (Hm b).
  destruct (m b) as [[a|e] b1]; simpl in Hm; subst b1.
  - apply Hk.
  - reflexivity.
Qed.

Lemma preserves_try_catch {A} (m : M B A) (handler : exn -> M B A) :
  preserves m -> (forall e, preserves (handler e)) ->
  preserves (try_catch m handler).
Proof.
  intros Hm Hh b. unfold try_catch. specialize (Hm b).
  destruct (m b) as [[a|e] b1]; simpl in Hm; subst b1.
  - reflexivity.
  - apply Hh.
Qed.

Lemma preserves_SITE_list (prefix : jsstring) : preserves (SITE_list prefix).
Proof. intros b. reflexivity. Qed.

Lemma preserves_SITE_get (k : jsstring) : preserves (SITE_get k).
Proof. intros b. reflexivity. Qed.

Ltac preserves_tac :=
  repeat first
    [ apply preserves_ret
    | apply preserves_lift
    | apply preserves_SITE_list
    | apply preserves_SITE_get
    | apply preserves_bind; [|intros]
    | match goal with
      | |- preserves (if ?c then _ else _) => destruct c
      | |- preserves (match ?x with _ => _ end) => destruct x
      end ].

(** A route that is not one of the three writing routes reached by POST
    leaves the bucket alone. *)
Lemma router_preserves (req : Request) (allow : bool) (origin : jsstring) :
  ~ (method req = str "POST" /\ In (pathname req) writing_routes) ->
  preserves (router host req allow origin).
Proof.
  intros H.
  assert (Hw : forall p, In (str p) writing_routes ->
                 streq (pathname req) (str p)
                 && streq (method req) (str "POST") = false).
  { intros p Hin. apply not_true_is_false. intros E.
    apply andb_true_iff in E. destruct E as [E1 E2].
    apply streq_eq in E1, E2. apply H. split; [exact E2|].
    rewrite E1. exact Hin. }
  unfold router, path_is, method_is.
  rewrite (Hw "/api/write"%string) by (simpl; tauto).
  rewrite (Hw "/api/apply-diff"%string) by (simpl; tauto).
  rewrite (Hw "/api/upload"%string) by (simpl; tauto).
  unfold api_ping, api_list, api_read, api_generate_html, api_analyze_cors,
    api_deploy.
  preserves_tac.
Qed.

End RouterAnswers.

(** X8. With an allowlist configured, the answer to a request that is
    not a preflight is either a JSON envelope sent as application/json,
    whose [ok] is true with status 200 and false with status 400, 404,
    500, 501 or 502, or a raw text with status 200; no other status and
    no envelope whose [ok] disagrees with its status leaves the
    handler. *)
Theorem every_answer_is_an_envelope
    {B : Type} {SITE : Bucket B} (host : Host)
    (req : Request) (env : Env) (origins : list value) (site : B) :
  Configured env origins ->
  method req <> str "OPTIONS" ->
  exists r site', fetch host req env site = (OK r, site') /\ Envelope r.
Proof.
  intros Hc Hm. rewrite (fetch_routed host req env origins site Hc Hm).
  unfold try_catch.
  destruct (router host req _ _ site) as [[r|e] b1] eqn:E.
  - exists r, b1. split; [reflexivity|].
    exact (router_Envelope host req _ _ site r b1 E).
  - eexists _, b1. split; [reflexivity|].
    apply envelope_error. simpl. tauto.
Qed.

Lemma every_answer_is_an_envelope_witness :
  exists r site',
    fetch Demo.engine Demo.prompt_five Demo.env Demo.empty = (OK r, site') /\
    Envelope r.
Proof.
  apply (every_answer_is_an_envelope Demo.engine Demo.prompt_five Demo.env
           [VStr Demo.site_origin] Demo.empty).
  - vm_compute. reflexivity.
  - vm_compute. discriminate.
Defined.

(** X9. Only a POST to /api/write, /api/apply-diff or /api/upload can
    change the bucket: after any other request, whatever the
    configuration and whether the handler returns or throws, the bucket
    is as it was. *)
Theorem only_three_routes_write
    {B : Type} {SITE : Bucket B} (host : Host)
    (req : Request) (env : Env) (site : B) :
  ~ (method req = str "POST" /\ In (pathname req) writing_routes) ->
  snd (fetch host req env site) = site.
Proof.
  intros H. revert site. change (preserves (fetch host req env)).
  unfold fetch.
  apply preserves_bind; [apply preserves_lift | intros origins].
  apply preserves_bind; [apply preserves_lift | intros allow].
  destruct (streq (method req) (str "OPTIONS")).
  - apply preserves_ret.
  - apply preserves_try_catch.
    + apply router_preserves, H.
    + intros e. apply preserves_ret.
Qed.

Lemma only_three_routes_write_witness :
  snd (fetch Demo.engine Demo.list_all Demo.env Demo.with_a) = Demo.with_a.
Proof.
  apply (only_three_routes_write Demo.engine Demo.list_all Demo.env
           Demo.with_a).
  intros [H _]. vm_compute in H. discriminate H.
Defined.

(** X10. With an allowlist configured, a request whose path is not
    /api/ping and whose path and method together are not a route of the
    table is answered 404 with the error Route not found; so is a known
    path asked with the wrong method.  The bucket is not touched. *)
Theorem unmatched_route_is_404
    {B : Type} {SITE : Bucket B} (host : Host)
    (req : Request) (env : Env) (origins : list value) (site : B) :
  Configured env origins ->
  method req <> str "OPTIONS" ->
  pathname req <> str "/api/ping" ->
  ~ In (pathname req, method req) route_table ->
  fetch host req env site
  = (OK (not_found_response (Array_includes origins (request_origin req))
                            (request_origin req)), site).
Proof.
  intros Hc Hm Hping Hroute.
  rewrite (fetch_routed host req env origins site Hc Hm).
  assert (Hr : forall p m, In (str p, str m) route_table ->
                 streq (pathname req) (str p)
                 && streq (method req) (str m) = false).
  { intros p m Hin. apply not_true_is_false. intros E.
    apply andb_true_iff in E. destruct E as [E1 E2].
    apply streq_eq in E1, E2. apply Hroute. rewrite E1, E2. exact Hin. }
  unfold try_catch, router, path_is, method_is.
  apply streq_neq in Hping. rewrite Hping.
  rewrite (Hr "/api/list"%string "GET"%string) by (simpl; tauto).
  rewrite (Hr "/api/read"%string "GET"%string) by (simpl; tauto).
  rewrite (Hr "/api/write"%string "POST"%string) by (simpl; tauto).
  rewrite (Hr "/api/apply-diff"%string "POST"%string) by (simpl; tauto).
  rewrite (Hr "/api/generate-html"%string "POST"%string) by (simpl; tauto).
  rewrite (Hr "/api/analyze-cors"%string "POST"%string) by (simpl; tauto).
  rewrite (Hr "/api/upload"%string "POST"%string) by (simpl; tauto).
  rewrite (Hr "/api/deploy"%string "POST"%string) by (simpl; tauto).
  reflexivity.
Qed.

Lemma unmatched_route_is_404_witness :
  fetch Demo.engine (Demo.request "GET" "/api/write" [] [] []) Demo.env
        Demo.empty
  = (OK (not_found_response false []), Demo.empty).
Proof.
  apply (unmatched_route_is_404 Demo.engine
           (Demo.request "GET" "/api/write" [] [] []) Demo.env
           [VStr Demo.site_origin] Demo.empty).
  - vm_compute. reflexivity.
  - vm_compute. discriminate.
  - vm_compute. discriminate.
  - vm_compute. intros H.
    repeat (destruct H as [H|H]; [discriminate H|]). exact H.
Defined.

(** X11. With an allowlist configured, /api/ping answers every method
    but OPTIONS, POST and DELETE as well as GET, with ok true and the
    time of the clock in ISO form; the bucket is not touched. *)
Theorem ping_answers_any_method
    {B : Type} {SITE : Bucket B} (host : Host)
    (req : Request) (env : Env) (origins : list value) (site : B) :
  Configured env origins ->
  method req <> str "OPTIONS" ->
  pathname req = str "/api/ping" ->
  fetch host req env site
  = (OK (json (VObj [ok_true;
                     (str "time", VStr (toISOString host (now host)))])
              (Array_includes origins (request_origin req))
              (request_origin req) 200), site).
Proof.
  intros Hc Hm Hp. rewrite (fetch_routed host req env origins site Hc Hm).
  unfold try_catch, router, path_is. rewrite Hp. reflexivity.
Qed.

Lemma ping_answers_any_method_witness :
  fetch Demo.engine (Demo.request "DELETE" "/api/ping" [] [] []) Demo.env
        Demo.empty
  = (OK (json (VObj [ok_true;
                     (str "time", VStr (str "2023-11-14T22:13:20.000Z"))])
              false [] 200), Demo.empty).
Proof.
  apply (ping_answers_any_method Demo.engine
           (Demo.request "DELETE" "/api/ping" [] [] []) Demo.env
           [VStr Demo.site_origin] Demo.empty).
  - vm_compute. reflexivity.
  - vm_compute. discriminate.
  - reflexivity.
Defined.

(* ================================================================== *)
(** * Reading and writing one file *)
(* ================================================================== *)

(** X12. With an allowlist configured, a GET of /api/read is answered 400
    with the error path required when the query has no [path] or an empty
    one, without asking the bucket; 404 with the error not found when the
    bucket has no object under the path; and the 500 of the catch block
    when the bucket throws. *)
Theorem read_errors
    {B : Type} {SITE : Bucket B} (host : Host)
    (req : Request) (env : Env) (origins : list value) (site : B) :
  Configured env origins ->
  method req = str "GET" ->
  pathname req = str "/api/read" ->
  let origin := request_origin req in
  let allow := Array_includes origins origin in
  let asked := first_of (str "path") (searchParams req) in
  (asked = None \/ asked = Some [] ->
   fetch host req env site
   = (OK (json (VObj [ok_false; error_is "path required"]) allow origin 400),
      site)) /\
  (forall p, asked = Some p -> p <> [] -> bucket_get site p = OK None ->
   fetch host req env site
   = (OK (json (VObj [ok_false; error_is "not found"]) allow origin 404),
      site)) /\
  (forall p e, asked = Some p -> p <> [] -> bucket_get site p = Throw e ->
   fetch host req env site = (OK (server_error_response e allow origin), site)).
Proof.
  intros Hc Hm Hp origin allow asked.
  rewrite (fetch_routed host req env origins site Hc
             (GET_is_not_OPTIONS req Hm)).
  fold origin allow. unfold try_catch.
  rewrite (route_read host req allow origin Hp Hm).
  unfold api_read. fold asked. split; [|split].
  - intros [-> | ->]; reflexivity.
  - intros p -> Hne Hget. destruct p as [|c p]; [contradiction|].
    unfold bind, SITE_get. rewrite Hget. reflexivity.
  - intros p e -> Hne Hget. destruct p as [|c p]; [contradiction|].
    unfold bind, SITE_get. rewrite Hget. reflexivity.
Qed.

Lemma read_errors_witness :
  fetch Demo.engine (Demo.request "GET" "/api/read" [] [] []) Demo.env
        Demo.with_a
  = (OK (json (VObj [ok_false; error_is "path required"]) false [] 400),
     Demo.with_a) /\
  fetch Demo.engine Demo.read_x Demo.env Demo.with_a
  = (OK (json (VObj [ok_false; error_is "not found"]) false [] 404),
     Demo.with_a).
Proof.
  assert (Hc : Configured Demo.env [VStr Demo.site_origin])
    by (vm_compute; reflexivity).
  split.
  - apply (proj1 (read_errors Demo.engine
                    (Demo.request "GET" "/api/read" [] [] []) Demo.env
                    [VStr Demo.site_origin] Demo.with_a Hc eq_refl eq_refl)).
    left. reflexivity.
  - apply (proj1 (proj2 (read_errors Demo.engine Demo.read_x Demo.env
                           [VStr Demo.site_origin] Demo.with_a
                           Hc eq_refl eq_refl)) (str "x.html")).
    + reflexivity.
    + vm_compute. discriminate.
    + reflexivity.
Defined.

(** X13. With an allowlist configured, a POST to /api/write whose body
    parses: a [path] that is absent or otherwise falsy is answered 400
    with the error path required, and a truthy [path] that is not a
    string with the 500 of the catch block, both without a write; a
    [path] that is a string is written with the content as it was given
    (the empty string when it is absent or [null]) and the answer echoes
    the path, unless the bucket throws, which gives the 500 and no
    write. *)
Theorem write_validation
    {B : Type} {SITE : Bucket B} (host : Host)
    (req : Request) (env : Env) (origins : list value) (site : B)
    (parsed path content : value) :
  Configured env origins ->
  method req = str "POST" ->
  pathname req = str "/api/write" ->
  safeJson req = OK parsed ->
  get parsed (str "path") = OK path ->
  get parsed (str "content") = OK content ->
  let origin := request_origin req in
  let allow := Array_includes origins origin in
  (truthy path = false ->
   fetch host req env site
   = (OK (json (VObj [ok_false; error_is "path required"]) allow origin 400),
      site)) /\
  (truthy path = true -> (forall p, path <> VStr p) ->
   exists msg,
     fetch host req env site
     = (OK (server_error_response (TypeError msg) allow origin), site)) /\
  (forall p site', path = VStr p -> p <> [] ->
   bucket_put site p (Content (nullish content (VStr []))) (contentType p)
   = OK site' ->
   fetch host req env site
   = (OK (json (VObj [ok_true; (str "path", VStr p)]) allow origin 200),
      site')) /\
  (forall p e, path = VStr p -> p <> [] ->
   bucket_put site p (Content (nullish content (VStr []))) (contentType p)
   = Throw e ->
   fetch host req env site = (OK (server_error_response e allow origin), site)).
Proof.
  intros Hc Hm Hp Hs Hpath Hcontent origin allow.
  rewrite (fetch_routed host req env origins site Hc
             (POST_is_not_OPTIONS req Hm)).
  fold origin allow. unfold try_catch.
  rewrite (route_write host req allow origin Hp Hm).
  unfold api_write, bind, lift. rewrite Hs, Hpath, Hcontent.
  split; [|split; [|split]].
  - intros Hf. rewrite Hf. reflexivity.
  - intros Ht Hns. rewrite Ht. simpl negb. cbv iota.
    destruct path; simpl in Ht; try discriminate Ht;
      try (eexists; reflexivity).
    exfalso. exact (Hns s eq_refl).
  - intros p site' -> Hne Hput. destruct p as [|c p]; [contradiction|].
    simpl. unfold SITE_put. rewrite Hput. reflexivity.
  - intros p e -> Hne Hput. destruct p as [|c p]; [contradiction|].
    simpl. unfold SITE_put. rewrite Hput. reflexivity.
Qed.

Lemma write_validation_witness :
  exists msg,
    fetch Demo.engine
          (Demo.request "POST" "/api/write" [] []
             (str "{" ++ Demo.quoted "path" ++ str ":true}"))
          Demo.env Demo.empty
    = (OK (server_error_response (TypeError msg) false []), Demo.empty).
Proof.
  assert (Hc : Configured Demo.env [VStr Demo.site_origin])
    by (vm_compute; reflexivity).
  apply (proj1 (proj2 (write_validation Demo.engine
           (Demo.request "POST" "/api/write" [] []
              (str "{" ++ Demo.quoted "path" ++ str ":true}"))
           Demo.env [VStr Demo.site_origin] Demo.empty
           (VObj [(str "path", VBool true)]) (VBool true) VUndefined
           Hc eq_refl eq_refl eq_refl eq_refl eq_refl))).
  - reflexivity.
  - intros p H. discriminate H.
Defined.

(* ================================================================== *)
(** * A batch that fails part of the way *)
(* ================================================================== *)

Section Loops.

Context {B : Type} {SITE : Bucket B}.

Lemma for_of_app {A} (xs ys : list A) (body : A -> M B unit) (b : B) :
  for_of (xs ++ ys) body b
  = match for_of xs body b with
    | (OK _, b1) => for_of ys body b1
    | (Throw e, b1) => (Throw e, b1)
    end.
Proof.
  revert b. induction xs as [|x xs IH]; intros b; simpl.
  - reflexivity.
  - unfold bind. destruct (body x b) as [[[]|e] b1]; [apply IH | reflexivity].
Qed.

End Loops.

(** X14. The batch of apply-diff is not atomic.  With an allowlist
    configured, when the writes of the first entries of [files] are
    accepted and the bucket throws on the write of the next entry, the
    answer is the 500 of the catch block with the text of that exception,
    the entries after it are not looked at, and the bucket keeps the
    writes made before. *)
Theorem apply_diff_keeps_earlier_writes
    {B : Type} {SITE : Bucket B} (host : Host)
    (req : Request) (env : Env) (origins : list value) (site site1 : B)
    (payload f : value) (before after : list value) (p : jsstring) (e : exn) :
  Configured env origins ->
  method req = str "POST" ->
  pathname req = str "/api/apply-diff" ->
  safeJson req = OK payload ->
  get_opt payload (str "files") = VArr (before ++ f :: after) ->
  Forall well_formed_entry before ->
  put_all site (writes_of before) = OK site1 ->
  get_opt f (str "path") = VStr p ->
  p <> [] ->
  bucket_put site1 p (Content (nullish (get_opt f (str "content")) (VStr [])))
             (contentType p) = Throw e ->
  fetch host req env site
  = (OK (server_error_response e
           (Array_includes origins (request_origin req))
           (request_origin req)), site1).
Proof.
  intros Hc Hm Hp Hs Hfiles Hwf Hput Hpath Hne Hthrow.
  rewrite (fetch_routed host req env origins site Hc
             (POST_is_not_OPTIONS req Hm)).
  unfold try_catch.
  rewrite (route_apply_diff host req _ _ Hp Hm).
  unfold api_apply_diff, bind, lift. rewrite Hs, Hfiles.
  rewrite for_of_app, (for_of_apply_file before site site1 Hwf Hput).
  simpl for_of. unfold bind.
  assert (Hf : well_formed_entry f).
  { unfold well_formed_entry. rewrite Hpath.
    split; [intros ->; discriminate Hpath|].
    split; [intros ->; discriminate Hpath|].
    right. exists p. reflexivity. }
  rewrite (apply_file_step f site1 Hf).
  unfold writes_of. simpl flat_map. rewrite Hpath.
  destruct p as [|c p]; [contradiction|].
  simpl. rewrite Hthrow. reflexivity.
Qed.

Lemma apply_diff_keeps_earlier_writes_witness :
  fetch Demo.engine Cases.apply_three Demo.env Demo.empty
  = (OK (server_error_response Cases.refused false []), Demo.with_a).
Proof.
  assert (Hc : Configured Demo.env [VStr Demo.site_origin])
    by (vm_compute; reflexivity).
  assert (Hs : safeJson Cases.apply_three
               = OK (VObj [(str "files",
                            VArr ([Cases.file_a]
                                  ++ Cases.file_b :: [Cases.file_c]))]))
    by (vm_compute; reflexivity).
  assert (Hwf : Forall well_formed_entry [Cases.file_a]).
  { apply Forall_cons; [|apply Forall_nil].
    split; [discriminate|]. split; [discriminate|].
    right. exists (str "a"). reflexivity. }
  assert (Hne : str "b" <> []) by (vm_compute; discriminate).
  exact (apply_diff_keeps_earlier_writes Demo.engine Cases.apply_three
           Demo.env [VStr Demo.site_origin] Demo.empty Demo.with_a
           (VObj [(str "files",
                   VArr ([Cases.file_a] ++ Cases.file_b :: [Cases.file_c]))])
           Cases.file_b [Cases.file_a] [Cases.file_c] (str "b") Cases.refused
           Hc eq_refl eq_refl Hs eq_refl Hwf eq_refl eq_refl Hne eq_refl).
Defined.

(* ================================================================== *)
(** * The header map of analyze-cors *)
(* ================================================================== *)

Lemma lookup_assign_same {A} (k : jsstring) (v : A)
    (h : list (jsstring * A)) :
  lookup k (assign k v h) = Some v.
Proof.
  induction h as [|[k' v'] h IH]; simpl.
  - rewrite streq_refl. reflexivity.
  - destruct (streq k' k) eqn:E; simpl.
    + rewrite streq_refl. reflexivity.
    + rewrite E. exact IH.
Qed.

Lemma lookup_assign_other {A} (k k0 : jsstring) (v : A)
    (h : list (jsstring * A)) :
  k0 <> k -> lookup k (assign k0 v h) = lookup k h.
Proof.
  intros Hne. apply streq_neq in Hne.
  induction h as [|[k' v'] h IH]; simpl.
  - rewrite Hne. reflexivity.
  - destruct (streq k' k0) eqn:E; simpl.
    + apply streq_eq in E. subst k'. rewrite Hne. reflexivity.
    + destruct (streq k' k); [reflexivity | exact IH].
Qed.

Lemma lower_idempotent (c : N) : lower (lower c) = lower c.
Proof.
  unfold lower.
  destruct ((65 <=? c)%N && (c <=? 90)%N) eqn:E; [|rewrite E; reflexivity].
  apply andb_true_iff in E. destruct E as [E1 E2].
  apply N.leb_le in E1, E2.
  replace ((65 <=? c + 32)%N && (c + 32 <=? 90)%N) with false; [reflexivity|].
  symmetry. apply andb_false_iff. right. apply N.leb_gt. lia.
Qed.

Lemma toLowerCase_ascii_idempotent (s : jsstring) :
  toLowerCase_ascii (toLowerCase_ascii s) = toLowerCase_ascii s.
Proof.
  unfold toLowerCase_ascii. rewrite map_map. apply map_ext.
  apply lower_idempotent.
Qed.

Lemma assign_keys {A} (P : jsstring -> Prop) (k : jsstring) (v : A)
    (h : list (jsstring * A)) :
  P k -> Forall (fun kv => P (fst kv)) h ->
  Forall (fun kv => P (fst kv)) (assign k v h).
Proof.
  intros Hk. induction 1 as [|[k' v'] h Hk' Hh IH]; simpl.
  - constructor; [exact Hk | constructor].
  - destruct (streq k' k); constructor; auto.
Qed.

Lemma record_header_skips (k : jsstring) (acc : headers)
    (kv : jsstring * jsstring) :
  toLowerCase_ascii (fst kv) <> k ->
  lookup k (record_header acc kv) = lookup k acc.
Proof.
  intros Hne. unfold record_header.
  destruct (streq (toLowerCase_ascii (fst kv)) (str "__proto__"));
    [reflexivity|].
  apply lookup_assign_other, Hne.
Qed.

(** X15. The header map that analyze-cors builds has lower-case names
    only, and a header of the reply, however its name is capitalised, is
    found under its lower-case name with the value of its last
    occurrence; when that value is not empty, [corsSuggestions] counts
    the header as present. *)
Theorem recorded_headers_lookup
    (before after : headers) (name v : jsstring) :
  toLowerCase_ascii name <> str "__proto__" ->
  Forall (fun kv => toLowerCase_ascii (fst kv) <> toLowerCase_ascii name)
         after ->
  let h := recorded_headers (before ++ (name, v) :: after) in
  lookup (toLowerCase_ascii name) h = Some v /\
  Forall (fun kv => toLowerCase_ascii (fst kv) = fst kv) h /\
  (v <> [] -> header_missing h (toLowerCase_ascii name) = false).
Proof.
  intros Hproto Hafter h.
  assert (Hlook : lookup (toLowerCase_ascii name) h = Some v).
  { unfold h, recorded_headers. rewrite fold_left_app. simpl fold_left.
    set (acc := fold_left record_header before []).
    assert (Hkv : lookup (toLowerCase_ascii name)
                         (record_header acc (name, v)) = Some v).
    { unfold record_header. simpl fst. simpl snd.
      apply streq_neq in Hproto. rewrite Hproto.
      apply lookup_assign_same. }
    revert Hkv. generalize (record_header acc (name, v)). clear acc.
    induction Hafter as [|kv after Hkv' Hafter IH]; intros acc Hacc; simpl.
    - exact Hacc.
    - apply IH. rewrite record_header_skips; assumption. }
  split; [exact Hlook|]. split.
  - unfold h, recorded_headers.
    assert (Hinv : forall hs acc,
               Forall (fun kv => toLowerCase_ascii (fst kv) = fst kv) acc ->
               Forall (fun kv => toLowerCase_ascii (fst kv) = fst kv)
                      (fold_left record_header hs acc)).
    { induction hs as [|kv hs IH]; intros acc Hacc; simpl; [exact Hacc|].
      apply IH. unfold record_header.
      destruct (streq (toLowerCase_ascii (fst kv)) (str "__proto__"));
        [exact Hacc|].
      apply (assign_keys (fun k => toLowerCase_ascii k = k));
        [apply toLowerCase_ascii_idempotent | exact Hacc]. }
    apply Hinv. constructor.
  - intros Hv. unfold header_missing. rewrite Hlook.
    destruct v; [contradiction | reflexivity].
Qed.

Lemma recorded_headers_lookup_witness :
  lookup (str "access-control-allow-origin")
         (recorded_headers [(str "Access-Control-Allow-Origin", str "*");
                            (str "Vary", str "Origin")])
  = Some (str "*").
Proof.
  apply (proj1 (recorded_headers_lookup []
                  [(str "Vary", str "Origin")]
                  (str "Access-Control-Allow-Origin") (str "*")
                  ltac:(vm_compute; discriminate)
                  ltac:(repeat constructor; vm_compute; discriminate))).
Defined.

(** X16. With an allowlist configured, a POST to /api/analyze-cors whose
    body parses: a [url] that is absent or otherwise falsy is answered
    400 with the error url required and no outbound request is made; when
    the outbound request throws, the answer is 502 with the error
    fetch_failed and the text of the exception, not the 500 of the catch
    block; when it returns, the answer is ok true with the status of the
    reply, its header map and the suggestions computed from that map.
    The bucket is not touched. *)
Theorem analyze_cors_outcomes
    {B : Type} {SITE : Bucket B} (host : Host)
    (req : Request) (env : Env) (origins : list value) (site : B)
    (parsed target : value) :
  Configured env origins ->
  method req = str "POST" ->
  pathname req = str "/api/analyze-cors" ->
  safeJson req = OK parsed ->
  get parsed (str "url") = OK target ->
  let origin := request_origin req in
  let allow := Array_includes origins origin in
  (truthy target = false ->
   fetch host req env site
   = (OK (json (VObj [ok_false; error_is "url required"]) allow origin 400),
      site)) /\
  (forall e, truthy target = true -> outbound host target = Throw e ->
   fetch host req env site
   = (OK (json (VObj [ok_false; error_is "fetch_failed";
                      (str "detail", VStr (String_exn e))])
               allow origin 502), site)) /\
  (forall res, truthy target = true -> outbound host target = OK res ->
   fetch host req env site
   = (OK (json (VObj [ok_true;
                      (str "status", VNum (reply_status res) 0);
                      (str "headers",
                       headers_value (recorded_headers (reply_headers res)));
                      (str "suggestions",
                       VArr (map VStr
                               (corsSuggestions
                                  (recorded_headers (reply_headers res)))))])
               allow origin 200), site)).
Proof.
  intros Hc Hm Hp Hs Hurl origin allow.
  rewrite (fetch_routed host req env origins site Hc
             (POST_is_not_OPTIONS req Hm)).
  fold origin allow. unfold try_catch.
  rewrite (route_analyze_cors host req allow origin Hp Hm).
  unfold api_analyze_cors, bind, lift. rewrite Hs, Hurl.
  split; [|split].
  - intros Hf. rewrite Hf. reflexivity.
  - intros e Ht He. rewrite Ht, He. reflexivity.
  - intros res Ht Hres. rewrite Ht, Hres. reflexivity.
Qed.

Lemma analyze_cors_outcomes_witness :
  fetch Demo.engine Cases.analyze_nowhere Demo.env Demo.empty
  = (OK (json (VObj [ok_false; error_is "fetch_failed";
                     (str "detail", VStr (str "TypeError: fetch failed"))])
              false [] 502), Demo.empty).
Proof.
  assert (Hc : Configured Demo.env [VStr Demo.site_origin])
    by (vm_compute; reflexivity).
  assert (Hs : safeJson Cases.analyze_nowhere
               = OK (VObj [(str "url",
                            VStr (str "https://nowhere.example/"))]))
    by (vm_compute; reflexivity).
  exact (proj1 (proj2 (analyze_cors_outcomes Demo.engine
                         Cases.analyze_nowhere Demo.env
                         [VStr Demo.site_origin] Demo.empty
                         (VObj [(str "url",
                                 VStr (str "https://nowhere.example/"))])
                         (VStr (str "https://nowhere.example/"))
                         Hc eq_refl eq_refl Hs eq_refl))
               (Thrown (str "TypeError: fetch failed")) eq_refl eq_refl).
Defined.

(* ================================================================== *)
(** * A body of white space *)
(* ================================================================== *)

Lemma lex_spaces (cs : jsstring) (toks : list Json.token) :
  Forall json_space cs -> Json.lex Json.Idle toks cs = Some (rev toks).
Proof.
  induction 1 as [|c cs Hc Hcs IH]; simpl; [reflexivity|].
  destruct Hc as [ -> | [ -> | [ -> | -> ] ] ]; exact IH.
Qed.

Lemma safeJson_spaces (req : Request) :
  text req <> [] -> Forall json_space (text req) ->
  exists msg, safeJson req = Throw (SyntaxError msg).
Proof.
  intros Hne Hsp. unfold safeJson.
  destruct (text req) as [|c cs] eqn:E; [contradiction|].
  unfold Json.parse. rewrite (lex_spaces (c :: cs) [] Hsp). simpl.
  eexists. reflexivity.
Qed.

(** X17. [safeJson] takes only the empty text for the empty object.  With
    an allowlist configured, a body that is not empty and holds nothing
    but spaces, tabs and line ends is not JSON text: on the four routes
    that read a JSON body the answer is the 500 of the catch block with a
    [SyntaxError], not the route's answer to an empty body. *)
Theorem blank_body_is_a_server_error
    {B : Type} {SITE : Bucket B} (host : Host)
    (req : Request) (env : Env) (origins : list value) (site : B) :
  Configured env origins ->
  method req = str "POST" ->
  In (pathname req) json_routes ->
  text req <> [] ->
  Forall json_space (text req) ->
  exists msg,
    fetch host req env site
    = (OK (server_error_response (SyntaxError msg)
             (Array_includes origins (request_origin req))
             (request_origin req)), site).
Proof.
  intros Hc Hm Hin Hne Hsp.
  destruct (safeJson_spaces req Hne Hsp) as [msg Hs].
  exists msg.
  rewrite (fetch_routed host req env origins site Hc
             (POST_is_not_OPTIONS req Hm)).
  unfold try_catch.
  rewrite (json_route_throws host req _ _ (SyntaxError msg) site Hin Hm Hs).
  reflexivity.
Qed.

Lemma blank_body_is_a_server_error_witness :
  exists msg,
    fetch Demo.engine Cases.write_blank Demo.env Demo.empty
    = (OK (server_error_response (SyntaxError msg) false []), Demo.empty).
Proof.
  apply (blank_body_is_a_server_error Demo.engine Cases.write_blank Demo.env
           [VStr Demo.site_origin] Demo.empty).
  - vm_compute. reflexivity.
  - reflexivity.
  - simpl. tauto.
  - vm_compute. discriminate.
  - unfold json_space. simpl. repeat constructor; tauto.
Defined.

(* ================================================================== *)
(** * Uploads that are refused, and where an upload lands *)
(* ================================================================== *)

(** X18. With an allowlist configured, a POST to /api/upload whose
    Content-Type does not start with multipart/form-data is answered 400
    without the form being read; with that content type, a form that
    cannot be read gives the 500 of the catch block, and a form whose
    [file] field is missing or is a text gives 400 with the error file
    required.  Nothing is written in any of these cases. *)
Theorem upload_refusals
    {B : Type} {SITE : Bucket B} (host : Host)
    (req : Request) (env : Env) (origins : list value) (site : B) :
  Configured env origins ->
  method req = str "POST" ->
  pathname req = str "/api/upload" ->
  let origin := request_origin req in
  let allow := Array_includes origins origin in
  let multipart :=
    startsWith (or_else (Headers_get (req_headers req) (str "Content-Type"))
                        [])
               (str "multipart/form-data") in
  (multipart = false ->
   fetch host req env site
   = (OK (json (VObj [ok_false; error_is "multipart/form-data required"])
               allow origin 400), site)) /\
  (forall e, multipart = true -> formData req = Throw e ->
   fetch host req env site = (OK (server_error_response e allow origin), site)) /\
  (forall form, multipart = true -> formData req = OK form ->
   (first_of (str "file") form = None
    \/ exists s, first_of (str "file") form = Some (FormText s)) ->
   fetch host req env site
   = (OK (json (VObj [ok_false; error_is "file required"]) allow origin 400),
      site)).
Proof.
  intros Hc Hm Hp origin allow multipart.
  rewrite (fetch_routed host req env origins site Hc
             (POST_is_not_OPTIONS req Hm)).
  fold origin allow. unfold try_catch.
  rewrite (route_upload host req allow origin Hp Hm).
  unfold api_upload, bind, lift. fold multipart.
  split; [|split].
  - intros ->. reflexivity.
  - intros e -> Hf. rewrite Hf. reflexivity.
  - intros form -> Hf Hfile. rewrite Hf. simpl negb. cbv iota.
    destruct Hfile as [-> | [s ->]]; reflexivity.
Qed.

Lemma upload_refusals_witness :
  fetch Demo.engine Cases.upload_json Demo.env Demo.empty
  = (OK (json (VObj [ok_false; error_is "multipart/form-data required"])
              false [] 400), Demo.empty) /\
  fetch Demo.engine Cases.upload_text_field Demo.env Demo.empty
  = (OK (json (VObj [ok_false; error_is "file required"]) false [] 400),
     Demo.empty).
Proof.
  assert (Hc : Configured Demo.env [VStr Demo.site_origin])
    by (vm_compute; reflexivity).
  split.
  - exact (proj1 (upload_refusals Demo.engine Cases.upload_json Demo.env
                    [VStr Demo.site_origin] Demo.empty Hc eq_refl eq_refl)
                 eq_refl).
  - exact (proj2 (proj2 (upload_refusals Demo.engine Cases.upload_text_field
                           Demo.env [VStr Demo.site_origin] Demo.empty
                           Hc eq_refl eq_refl))
                 [(str "file", FormText (str "photo"))] eq_refl eq_refl
                 (or_intror (ex_intro _ (str "photo") eq_refl))).
Defined.

(** X19. Whatever the name of the uploaded file, slashes and dots included,
    the key of an accepted upload has exactly two segments, [assets] and
    one made of the clock and the sanitized name, and the url of the
    answer is the key after a slash: a file name cannot place the object
    outside [assets/] or in a folder below it. *)
Theorem upload_key_has_two_segments
    {B : Type} {SITE : Bucket B} (host : Host)
    (req : Request) (env : Env) (origins : list value) (site site' : B)
    (form : list (jsstring * FormEntry)) (file : File) :
  Configured env origins ->
  method req = str "POST" ->
  pathname req = str "/api/upload" ->
  startsWith (or_else (Headers_get (req_headers req) (str "Content-Type")) [])
             (str "multipart/form-data") = true ->
  formData req = OK form ->
  first_of (str "file") form = Some (FormFile file) ->
  let key := str "assets/" ++ decimal (now host) ++ str "_"
             ++ sanitize (file_name file) in
  bucket_put site key (Buffer (file_bytes file)) (stored_type file)
  = OK site' ->
  fetch host req env site
  = (OK (json (VObj [ok_true; (str "key", VStr key);
                     (str "url", VStr (str "/" ++ key))])
              (Array_includes origins (request_origin req))
              (request_origin req) 200), site') /\
  split_slash key
  = [str "assets"; decimal (now host) ++ str "_" ++ sanitize (file_name file)].
Proof.
  intros Hc Hm Hp Hct Hform Hfile key Hput.
  assert (Hrest : Forall (fun c => c <> 47%N)
                    (decimal (now host) ++ str "_"
                     ++ sanitize (file_name file))).
  { apply Forall_app. split; [apply decimal_no_slash|].
    apply Forall_app. split; [|apply sanitize_no_slash].
    constructor; [discriminate | constructor]. }
  assert (Hsplit : split_slash key
                   = [str "assets";
                      decimal (now host) ++ str "_"
                      ++ sanitize (file_name file)]).
  { unfold key.
    change (str "assets/" ++ decimal (now host) ++ str "_"
            ++ sanitize (file_name file))
      with (str "assets" ++ 47%N :: (decimal (now host) ++ str "_"
                                     ++ sanitize (file_name file))).
    rewrite split_slash_at_slash
      by (repeat (constructor; [discriminate|]); constructor).
    rewrite (split_slash_no_slash _ Hrest). reflexivity. }
  split; [|exact Hsplit].
  rewrite (fetch_routed host req env origins site Hc
             (POST_is_not_OPTIONS req Hm)).
  unfold try_catch.
  rewrite (route_upload host req _ _ Hp Hm).
  unfold api_upload, bind, lift. rewrite Hct, Hform, Hfile.
  change (negb true) with false. fold key. unfold SITE_put.
  replace (or_else (Some (file_type file)) (str "application/octet-stream"))
    with (stored_type file)
    by (unfold stored_type; destruct (file_type file); reflexivity).
  cbv beta iota. rewrite Hput.
  unfold last_segment. rewrite Hsplit. reflexivity.
Qed.

Lemma upload_key_has_two_segments_witness :
  fetch Demo.engine Cases.upload_climbing Demo.env Demo.empty
  = (OK (json (VObj [ok_true;
                     (str "key",
                      VStr (str "assets/1700000000000_.._.._etc_passwd"));
                     (str "url",
                      VStr (str "/assets/1700000000000_.._.._etc_passwd"))])
              false [] 200),
     Demo.write Demo.empty (str "assets/1700000000000_.._.._etc_passwd")
                [] (str "application/octet-stream")).
Proof.
  assert (Hc : Configured Demo.env [VStr Demo.site_origin])
    by (vm_compute; reflexivity).
  exact (proj1 (upload_key_has_two_segments Demo.engine Cases.upload_climbing
                  Demo.env [VStr Demo.site_origin] Demo.empty
                  (Demo.write Demo.empty
                     (str "assets/1700000000000_.._.._etc_passwd")
                     [] (str "application/octet-stream"))
                  [(str "file", FormFile Cases.climbing)] Cases.climbing
                  Hc eq_refl eq_refl eq_refl eq_refl eq_refl eq_refl)).
Defined.

(* ================================================================== *)
(** * More on the placeholder, the body [null] and deploy *)
(* ================================================================== *)

(** X20. The placeholder escapes the prompt but not the section: with an
    allowlist configured, a [section] that is a string is copied as it is
    into the comment at the head of the html, so every code unit of it,
    angle brackets and the end of a comment included, is in the html. *)
Theorem generate_html_section_is_not_escaped
    {B : Type} {SITE : Bucket B} (host : Host)
    (req : Request) (env : Env) (origins : list value) (site : B)
    (parsed prompt : value) (s : jsstring) :
  Configured env origins ->
  method req = str "POST" ->
  pathname req = str "/api/generate-html" ->
  safeJson req = OK parsed ->
  get parsed (str "prompt") = OK prompt ->
  get parsed (str "section") = OK (VStr s) ->
  printable_prompt prompt ->
  let html := html_template s (escapeHtml (heading_text prompt)) in
  fetch host req env site
  = (OK (json (VObj [ok_true; (str "html", VStr html);
                     (str "css", VStr card_css); (str "js", VStr [])])
              (Array_includes origins (request_origin req))
              (request_origin req) 200), site) /\
  (exists rest, html = str "<!-- generated: " ++ s ++ str " -->" ++ rest) /\
  (forall c, In c s -> In c html).
Proof.
  intros Hc Hm Hp Hs Hpr Hse Hok html. split; [|split].
  - rewrite (fetch_routed host req env origins site Hc
               (POST_is_not_OPTIONS req Hm)).
    unfold try_catch.
    rewrite (route_generate_html host req _ _ Hp Hm).
    unfold api_generate_html, bind, lift.
    rewrite Hs, Hpr, Hse. simpl ToString. cbv beta iota.
    rewrite (escapeHtml_heading prompt Hok). reflexivity.
  - unfold html, html_template. eexists. reflexivity.
  - intros c Hin. unfold html, html_template.
    apply in_or_app. right. apply in_or_app. left. exact Hin.
Qed.

Lemma generate_html_section_is_not_escaped_witness :
  fetch Demo.engine Cases.section_closing_comment Demo.env Demo.empty
  = (OK (json (VObj [ok_true;
                     (str "html",
                      VStr (html_template (str "--><b>")
                                          (str "New Section")));
                     (str "css", VStr card_css); (str "js", VStr [])])
              false [] 200), Demo.empty).
Proof.
  assert (Hc : Configured Demo.env [VStr Demo.site_origin])
    by (vm_compute; reflexivity).
  assert (Hs : safeJson Cases.section_closing_comment
               = OK (VObj [(str "section", VStr (str "--><b>"))]))
    by (vm_compute; reflexivity).
  exact (proj1 (generate_html_section_is_not_escaped Demo.engine
                  Cases.section_closing_comment Demo.env
                  [VStr Demo.site_origin] Demo.empty
                  (VObj [(str "section", VStr (str "--><b>"))])
                  VUndefined (str "--><b>")
                  Hc eq_refl eq_refl Hs eq_refl eq_refl
                  (or_introl eq_refl))).
Defined.

(** X21. With an allowlist configured, a POST to /api/generate-html whose
    [prompt] is truthy and not a string (a number, [true], an array or an
    object) is answered with the 500 of the catch block: [escapeHtml]
    throws a [TypeError] on a value without a [replace] method. *)
Theorem generate_html_refuses_non_string_prompt
    {B : Type} {SITE : Bucket B} (host : Host)
    (req : Request) (env : Env) (origins : list value) (site : B)
    (parsed prompt section : value) (tag : jsstring) :
  Configured env origins ->
  method req = str "POST" ->
  pathname req = str "/api/generate-html" ->
  safeJson req = OK parsed ->
  get parsed (str "prompt") = OK prompt ->
  get parsed (str "section") = OK section ->
  ToString host (match section with
                 | VUndefined => VStr (str "page")
                 | _ => section
                 end) = OK tag ->
  truthy prompt = true ->
  (forall s, prompt <> VStr s) ->
  exists msg,
    fetch host req env site
    = (OK (server_error_response (TypeError msg)
             (Array_includes origins (request_origin req))
             (request_origin req)), site).
Proof.
  intros Hc Hm Hp Hs Hpr Hse Htag Ht Hns.
  rewrite (fetch_routed host req env origins site Hc
             (POST_is_not_OPTIONS req Hm)).
  unfold try_catch.
  rewrite (route_generate_html host req _ _ Hp Hm).
  unfold api_generate_html, bind, lift.
  rewrite Hs, Hpr, Hse, Htag, Ht.
  destruct prompt; simpl in Ht; try discriminate Ht;
    try (eexists; reflexivity).
  exfalso. exact (Hns s eq_refl).
Qed.

Lemma generate_html_refuses_non_string_prompt_witness :
  exists msg,
    fetch Demo.engine Demo.prompt_five Demo.env Demo.empty
    = (OK (server_error_response (TypeError msg) false []), Demo.empty).
Proof.
  assert (Hc : Configured Demo.env [VStr Demo.site_origin])
    by (vm_compute; reflexivity).
  assert (Hs : safeJson Demo.prompt_five
               = OK (VObj [(str "prompt", VNum 5 0)]))
    by (vm_compute; reflexivity).
  apply (generate_html_refuses_non_string_prompt Demo.engine Demo.prompt_five
           Demo.env [VStr Demo.site_origin] Demo.empty
           (VObj [(str "prompt", VNum 5 0)]) (VNum 5 0) VUndefined
           (str "page") Hc eq_refl eq_refl Hs eq_refl eq_refl eq_refl).
  - reflexivity.
  - intros s H. discriminate H.
Defined.

(** X22. The body [null] is JSON text, and the routes do not treat it
    alike.  With an allowlist configured, write, generate-html and
    analyze-cors take members out of the parsed body, which throws on
    [null], and answer with the 500 of the catch block; apply-diff reads
    [files] with an optional chain and answers its 400.  The bucket is
    not touched. *)
Theorem null_body
    {B : Type} {SITE : Bucket B} (host : Host)
    (req : Request) (env : Env) (origins : list value) (site : B) :
  Configured env origins ->
  method req = str "POST" ->
  safeJson req = OK VNull ->
  let origin := request_origin req in
  let allow := Array_includes origins origin in
  (In (pathname req)
      [str "/api/write"; str "/api/generate-html"; str "/api/analyze-cors"] ->
   exists msg,
     fetch host req env site
     = (OK (server_error_response (TypeError msg) allow origin), site)) /\
  (pathname req = str "/api/apply-diff" ->
   fetch host req env site = (OK (files_required_response allow origin), site)).
Proof.
  intros Hc Hm Hs origin allow.
  rewrite (fetch_routed host req env origins site Hc
             (POST_is_not_OPTIONS req Hm)).
  fold origin allow. unfold try_catch. split.
  - intros Hin. simpl in Hin.
    destruct Hin as [Hp|[Hp|[Hp|[]]]]; symmetry in Hp; eexists.
    + rewrite (route_write host req allow origin Hp Hm).
      unfold api_write, bind, lift. rewrite Hs. reflexivity.
    + rewrite (route_generate_html host req allow origin Hp Hm).
      unfold api_generate_html, bind, lift. rewrite Hs. reflexivity.
    + rewrite (route_analyze_cors host req allow origin Hp Hm).
      unfold api_analyze_cors, bind, lift. rewrite Hs. reflexivity.
  - intros Hp. rewrite (route_apply_diff host req allow origin Hp Hm).
    unfold api_apply_diff, bind, lift. rewrite Hs. reflexivity.
Qed.

Lemma null_body_witness :
  (exists msg,
     fetch Demo.engine Cases.write_null Demo.env Demo.empty
     = (OK (server_error_response (TypeError msg) false []), Demo.empty)) /\
  fetch Demo.engine Cases.apply_null Demo.env Demo.empty
  = (OK (files_required_response false []), Demo.empty).
Proof.
  assert (Hc : Configured Demo.env [VStr Demo.site_origin])
    by (vm_compute; reflexivity).
  split.
  - apply (proj1 (null_body Demo.engine Cases.write_null Demo.env
                    [VStr Demo.site_origin] Demo.empty Hc eq_refl
                    ltac:(vm_compute; reflexivity))).
    simpl. tauto.
  - apply (proj2 (null_body Demo.engine Cases.apply_null Demo.env
                    [VStr Demo.site_origin] Demo.empty Hc eq_refl
                    ltac:(vm_compute; reflexivity))).
    reflexivity.
Defined.

(** X23. With an allowlist configured, a POST to /api/deploy is answered
    501 with ok false and a message, under [message] and not [error],
    whatever the body, which is not read; the bucket is not touched. *)
Theorem deploy_is_not_implemented
    {B : Type} {SITE : Bucket B} (host : Host)
    (req : Request) (env : Env) (origins : list value) (site : B) :
  Configured env origins ->
  method req = str "POST" ->
  pathname req = str "/api/deploy" ->
  exists r,
    fetch host req env site = (OK r, site) /\
    status r = 501%Z /\
    (exists obj, body r = Json obj /\
       get_opt obj (str "ok") = VBool false /\
       get_opt obj (str "error") = VUndefined /\
       get_opt obj (str "message")
       = VStr (str "Deploy not wired yet. Choose Pages Direct Upload or Git mode.")).
Proof.
  intros Hc Hm Hp.
  rewrite (fetch_routed host req env origins site Hc
             (POST_is_not_OPTIONS req Hm)).
  unfold try_catch, router, path_is, method_is. rewrite Hp, Hm.
  eexists. split; [reflexivity|]. split; [reflexivity|].
  eexists. split; [reflexivity|]. repeat split; reflexivity.
Qed.

Lemma deploy_is_not_implemented_witness :
  exists r,
    fetch Demo.engine Cases.deploy_broken Demo.env Demo.empty
    = (OK r, Demo.empty) /\ status r = 501%Z.
Proof.
  destruct (deploy_is_not_implemented Demo.engine Cases.deploy_broken
              Demo.env [VStr Demo.site_origin] Demo.empty)
    as (r & E & Hst & _).
  - vm_compute. reflexivity.
  - reflexivity.
  - reflexivity.
  - exists r. split; assumption.
Defined.
